(** * Speech SDK (JavaScript binding): SpeechRecognizer and AudioStreamFormat

A shallow embedding of
  - [source/bindings/js/src/sdk/Audio/AudioStreamFormat.ts]
  - the [SpeechRecognizer] class (event translation and session
    life cycle),
followed by the properties established about them. *)

From Stdlib Require Import ZArith Ascii String List Bool.
From stdpp Require Import base option strings gmap.
Import ListNotations.

Local Open Scope Z_scope.

(* ===================================================================== *)
(** ** AudioStreamFormat.ts *)
(* ===================================================================== *)

Module AudioStreamFormat.

Section WithNumber.
(** A JavaScript [number] (an IEEE double in the source).  The class only
    multiplies numbers, takes [Math.max] and writes numeric literals, so
    the type and these three operations are kept abstract: every
    statement below holds for any implementation of them. *)
Variable number : Type.
Variable mul : number -> number -> number.
Variable Math_max : number -> number -> number.
Variable lit : Z -> number.

Record AudioStreamFormatImpl : Type := mkAudioStreamFormatImpl {
  formatTag : number;
  channels : number;
  samplesPerSec : number;
  bitsPerSample : number;
  avgBytesPerSec : number;
  blockAlign : number
}.

(** A parameter with a default value: [None] is an omitted ([undefined])
    argument. *)
Definition default_param (arg : option number) (dflt : number) : number :=
  match arg with
  | Some v => v
  | None => dflt
  end.

(** [constructor(samplesPerSec = 16000, bitsPerSample = 16, channels = 1)] *)
Definition new_AudioStreamFormatImpl
    (samplesPerSec_arg bitsPerSample_arg channels_arg : option number)
    : AudioStreamFormatImpl :=
  let samplesPerSec_ := default_param samplesPerSec_arg (lit 16000) in
  let bitsPerSample_ := default_param bitsPerSample_arg (lit 16) in
  let channels_ := default_param channels_arg (lit 1) in
  {| formatTag := lit 1;
     bitsPerSample := bitsPerSample_;
     samplesPerSec := samplesPerSec_;
     channels := channels_;
     avgBytesPerSec := mul (mul samplesPerSec_ channels_) bitsPerSample_;
     blockAlign := mul channels_ (Math_max bitsPerSample_ (lit 8)) |}.

(** [AudioStreamFormatImpl.getDefaultInputFormat()] and the abstract
    class's static method that forwards to it. *)
Definition Impl_getDefaultInputFormat : AudioStreamFormatImpl :=
  new_AudioStreamFormatImpl None None None.

Definition getDefaultInputFormat : AudioStreamFormatImpl :=
  Impl_getDefaultInputFormat.

(** [AudioStreamFormat.getWaveFormatPCM(samplesPerSecond, bitsPerSample, channels)] *)
Definition getWaveFormatPCM (samplesPerSecond bitsPerSample_ channels_ : number)
    : AudioStreamFormatImpl :=
  new_AudioStreamFormatImpl
    (Some samplesPerSecond) (Some bitsPerSample_) (Some channels_).

End WithNumber.

Arguments formatTag {number} _.
Arguments channels {number} _.
Arguments samplesPerSec {number} _.
Arguments bitsPerSample {number} _.
Arguments avgBytesPerSec {number} _.
Arguments blockAlign {number} _.

(** Integers that a JavaScript number holds exactly
    ([Number.MIN_SAFE_INTEGER] to [Number.MAX_SAFE_INTEGER]). *)
Definition safe_integer (z : Z) : Prop := - 2 ^ 53 < z < 2 ^ 53.

(** The integer-valued instance, used to run the definitions.  It agrees
    with the source on integer arguments as long as every product is a
    [safe_integer], where the arithmetic of numbers is exact. *)
Definition getWaveFormatPCM_Z : Z -> Z -> Z -> AudioStreamFormatImpl Z :=
getWaveFormatPCM Z Z.mul Z.max (fun z => z).

Definition getDefaultInputFormat_Z : AudioStreamFormatImpl Z :=
getDefaultInputFormat Z Z.mul Z.max (fun z => z).

End AudioStreamFormat.


(* ===================================================================== *)
(** ** SpeechRecognizer: data model *)
(* ===================================================================== *)

Module SpeechRecognizer.

(** [ResultReason], [CancellationReason], [OutputFormat] and
    [RecognitionMode] are enumerations imported from [./Exports] and
    [../common.speech/Exports]; only the members the class names are
    needed. *)
Inductive ResultReason : Type := NoMatch | Canceled | RecognizedSpeech.
Inductive CancellationReason : Type := Error | EndOfStream.
Inductive OutputFormat : Type := Simple | Detailed.
Inductive RecognitionMode : Type := Interactive | Conversation.

#[global] Instance ResultReason_eq_dec : EqDecision ResultReason.
Proof. solve_decision. Defined.

(** What the class imports from [../common.speech/Exports] and from the
    JavaScript runtime and does not define itself: the two service status
    enumerations, the reverse mapping of [RecognitionCompletionStatus]
    (member to member name), the two status translations of
    [EnumTranslation], and [JSON.stringify].  They are parameters of the
    whole development. *)
Class Exports : Type := {
  RecognitionStatus2 : Type;
  RecognitionCompletionStatus : Type;
  RecognitionCompletionStatus_eq_dec :: EqDecision RecognitionCompletionStatus;
  Success : RecognitionCompletionStatus;
  RecognitionCompletionStatus_name : RecognitionCompletionStatus -> string;
  implTranslateRecognitionResult : RecognitionStatus2 -> ResultReason;
  implTranslateCancelResult : RecognitionStatus2 -> CancellationReason;
  JSON_stringify : forall {A : Type}, A -> string
}.

(** A value thrown by JavaScript code. *)
Inductive JSError : Type :=
| TypeError (msg : string)
| ObjectDisposed
| ArgumentNullOrWhitespace (name : string)
| Thrown (msg : string).

(** [SpeechRecognitionResult]: a bag of public fields, every one of them
    [undefined] ([None]) until it is assigned. *)
Record SpeechRecognitionResult : Type := mkResult {
  reason : option ResultReason;
  text : option string;
  offset : option Z;
  duration : option Z;
  json : option string;
  errorDetails : option string
}.

Definition new_SpeechRecognitionResult : SpeechRecognitionResult :=
  mkResult None None None None None None.

Definition set_reason (r : SpeechRecognitionResult) (v : ResultReason) :=
  mkResult (Some v) (text r) (offset r) (duration r) (json r) (errorDetails r).
Definition set_text (r : SpeechRecognitionResult) (v : string) :=
  mkResult (reason r) (Some v) (offset r) (duration r) (json r) (errorDetails r).
Definition set_offset (r : SpeechRecognitionResult) (v : Z) :=
  mkResult (reason r) (text r) (Some v) (duration r) (json r) (errorDetails r).
Definition set_duration (r : SpeechRecognitionResult) (v : Z) :=
  mkResult (reason r) (text r) (offset r) (Some v) (json r) (errorDetails r).
Definition set_json (r : SpeechRecognitionResult) (v : string) :=
  mkResult (reason r) (text r) (offset r) (duration r) (Some v) (errorDetails r).
Definition set_errorDetails (r : SpeechRecognitionResult) (v : string) :=
  mkResult (reason r) (text r) (offset r) (duration r) (json r) (Some v).

(** [SpeechRecognitionEventArgs] *)
Record SpeechRecognitionEventArgs : Type := mkEventArgs {
  ea_sessionId : option string;
  ea_result : option SpeechRecognitionResult
}.

Definition new_SpeechRecognitionEventArgs : SpeechRecognitionEventArgs :=
  mkEventArgs None None.

(** [SpeechRecognitionCanceledEventArgs] *)
Record SpeechRecognitionCanceledEventArgs : Type := mkCanceledEventArgs {
  cea_sessionId : option string;
  cea_reason : option CancellationReason;
  cea_errorDetails : option string
}.

Definition new_SpeechRecognitionCanceledEventArgs
    : SpeechRecognitionCanceledEventArgs :=
  mkCanceledEventArgs None None None.

(** Service payloads. *)
Record IPhrase : Type := mkPhrase {
  Lexical : string;
  Display : string
}.

Section Payloads.
Context `{Exports}.

Record ISimpleSpeechPhrase : Type := mkSimple {
  simple_RecognitionStatus : RecognitionStatus2;
  simple_DisplayText : string;
  simple_Offset : Z;
  simple_Duration : Z
}.

Record IDetailedSpeechPhrase : Type := mkDetailed {
  detailed_RecognitionStatus : RecognitionStatus2;
  detailed_NBest : list IPhrase;
  detailed_Offset : Z;
  detailed_Duration : Z
}.

Record ISpeechHypothesis : Type := mkHypothesis {
  hyp_Text : string;
  hyp_Offset : Z;
  hyp_Duration : Z
}.

(** [SpeechRecognitionEvent], told apart by [event.Name].  The engine emits
    further events the [switch] has no case for. *)
Inductive SpeechRecognitionEvent : Type :=
| RecognitionEndedEvent
    (Status : RecognitionCompletionStatus) (SessionId : string) (Error_ : string)
| SpeechSimplePhraseEvent (SessionId : string) (Result : ISimpleSpeechPhrase)
| SpeechDetailedPhraseEvent (SessionId : string) (Result : IDetailedSpeechPhrase)
| SpeechHypothesisEvent (SessionId : string) (Result : ISpeechHypothesis)
| OtherEvent (Name : string).

End Payloads.

(** A function supplied by the user (a subscriber or a completion callback),
    seen from its caller: applied to its argument it either returns ([None])
    or throws ([Some e]).  The [sender] argument of a subscriber is the
    recognizer itself and is left out; a function that calls back into the
    recognizer while it runs is outside this model. *)
Definition Handler (A : Type) : Type := A -> option JSError.

(** Handle of a session of the protocol engine ([ServiceRecognizerBase]). *)
Definition ServiceRecognizerBase : Type := nat.

(** Everything observable from outside the class: calls of user functions,
    with their argument, and calls into the engine. *)
Inductive Action : Type :=
| call_canceled (ev : SpeechRecognitionCanceledEventArgs)
| call_recognized (ev : SpeechRecognitionEventArgs)
| call_recognizing (ev : SpeechRecognitionEventArgs)
| call_cb (result : SpeechRecognitionResult)
| call_err (e : JSError)
| call_started
| call_stopped
| AudioSource_TurnOff (r : ServiceRecognizerBase)
| Dispose (r : ServiceRecognizerBase)
| Setup (mode : RecognitionMode) (r : ServiceRecognizerBase)
| Start (r : ServiceRecognizerBase)
| super_dispose (disposing : bool).

(* ===================================================================== *)
(** ** Statements with mutable state, a trace and exceptions *)
(* ===================================================================== *)

(** A statement run from state [s] yields the actions it performed, the
    state it leaves (assignments survive an exception) and either the thrown
    value or its result. *)
Definition M (St A : Type) : Type := St -> list Action * St * (JSError + A).

#[global] Instance M_ret {St} : MRet (M St) :=
  fun A (a : A) s => ([], s, inr a).

#[global] Instance M_bind {St} : MBind (M St) :=
  fun A B (f : A -> M St B) (m : M St A) s =>
    match m s with
    | (t, s', inl e) => (t, s', inl e)
    | (t, s', inr a) =>
        match f a s' with
        | (t', s'', r) => (t ++ t', s'', r)
        end
    end.

Definition throw {St A} (e : JSError) : M St A :=
  fun s => ([], s, inl e).

Definition get {St} : M St St :=
  fun s => ([], s, inr s).

Definition put {St} (s : St) : M St unit :=
  fun _ => ([], s, inr tt).

Definition emit {St} (a : Action) : M St unit :=
  fun s => ([a], s, inr tt).

(** [try { body } catch (e) { handler e }] *)
Definition try_catch {St A} (body : M St A) (handler : JSError -> M St A) : M St A :=
  fun s =>
    match body s with
    | (t, s', inl e) =>
        match handler e s' with
        | (t', s'', r) => (t ++ t', s'', r)
        end
    | (t, s', inr a) => (t, s', inr a)
    end.

(** A call [h(a)] of a user function, recorded as [act a]. *)
Definition invoke {St A} (act : A -> Action) (h : Handler A) (a : A) : M St unit :=
  fun s => ([act a], s, match h a with Some e => inl e | None => inr tt end).

Definition trace_of {St A} (x : list Action * St * (JSError + A)) : list Action :=
  fst (fst x).
Definition state_of {St A} (x : list Action * St * (JSError + A)) : St :=
  snd (fst x).
Definition outcome_of {St A} (x : list Action * St * (JSError + A)) : JSError + A :=
  snd x.

(* ===================================================================== *)
(** ** Collaborators: Contracts and PropertyCollection *)
(* ===================================================================== *)

(** Characters removed by [String.prototype.trim], within ASCII. *)
Definition is_whitespace (c : ascii) : bool :=
  match nat_of_ascii c with
  | 9%nat | 10%nat | 11%nat | 12%nat | 13%nat | 32%nat => true
  | _ => false
  end.

Fixpoint is_blank (s : string) : bool :=
  match s with
  | EmptyString => true
  | String c s' => is_whitespace c && is_blank s'
  end.

(** Modelled from the spec: [Contracts.throwIfDisposed] of [./Contracts],
    which is not part of the sources at hand.  A disposed instance fails
    with the disposed classification. *)
Definition throwIfDisposed {St} (isDisposed : bool) : M St unit :=
  if isDisposed then throw ObjectDisposed else mret tt.

(** Modelled from the spec: [Contracts.throwIfNullOrWhitespace] of
    [./Contracts], which is not part of the sources at hand.  A null
    ([None]) or blank argument fails with a precondition error naming the
    argument. *)
Definition throwIfNullOrWhitespace {St} (param : option string) (name : string)
    : M St unit :=
  match param with
  | None => throw (ArgumentNullOrWhitespace name)
  | Some v => if is_blank v then throw (ArgumentNullOrWhitespace name) else mret tt
  end.

(** Modelled from the spec: [PropertyCollection] of [./Exports], the backing
    configuration store, which is not part of the sources at hand: a map
    from property names to strings, read with an optional default. *)
Definition getProperty (p : gmap string string) (key : string) (def : option string)
    : option string :=
  match p !! key with
  | Some v => Some v
  | None => def
  end.

Definition setProperty (p : gmap string string) (key : string) (value : string)
    : gmap string string :=
  <[key := value]> p.

(** Names of the [PropertyId] members used, and [OutputFormatPropertyName]. *)
Definition SpeechServiceConnection_EndpointId : string :=
  "SpeechServiceConnection_EndpointId".
Definition SpeechServiceAuthorization_Token : string :=
  "SpeechServiceAuthorization_Token".
Definition SpeechServiceConnection_RecoLanguage : string :=
  "SpeechServiceConnection_RecoLanguage".
Definition OutputFormatPropertyName : string := "OutputFormat".

(** [OutputFormat[OutputFormat.Simple]] and its sibling. *)
Definition OutputFormat_name (f : OutputFormat) : string :=
  match f with
  | Simple => "Simple"
  | Detailed => "Detailed"
  end.

(* ===================================================================== *)
(** ** The class SpeechRecognizer *)
(* ===================================================================== *)

(** The fields of an instance.  [reco] is [None] when the field holds
    [undefined]; the three subscriber fields likewise. *)
Record SpeechRecognizer : Type := mkSpeechRecognizer {
  disposedSpeechRecognizer : bool;
  privProperties : gmap string string;
  recognizing : option (Handler SpeechRecognitionEventArgs);
  recognized : option (Handler SpeechRecognitionEventArgs);
  canceled : option (Handler SpeechRecognitionCanceledEventArgs);
  reco : option ServiceRecognizerBase
}.

Definition set_disposedSpeechRecognizer (o : SpeechRecognizer) (v : bool) :=
  mkSpeechRecognizer v (privProperties o) (recognizing o) (recognized o)
    (canceled o) (reco o).
Definition set_privProperties (o : SpeechRecognizer) (v : gmap string string) :=
  mkSpeechRecognizer (disposedSpeechRecognizer o) v (recognizing o) (recognized o)
    (canceled o) (reco o).
Definition set_reco (o : SpeechRecognizer) (v : option ServiceRecognizerBase) :=
  mkSpeechRecognizer (disposedSpeechRecognizer o) (privProperties o)
    (recognizing o) (recognized o) (canceled o) v.

(** [get properties()] *)
Definition properties (o : SpeechRecognizer) : gmap string string :=
  privProperties o.

(** The parameters [cb] and [err] of [implDispatchMessageHandler]: local
    variables of one call, which the body reassigns. *)
Record Locals : Type := mkLocals {
  cb : option (Handler SpeechRecognitionResult);
  err : option (Handler JSError)
}.

(** [if (!!this.x) { try { this.x(this, ev); } catch (error) { } }] *)
Definition notify {St A} (act : A -> Action) (x : option (Handler A)) (ev : A)
    : M St unit :=
  match x with
  | Some h => try_catch (invoke act h ev) (fun _ => mret tt)
  | None => mret tt
  end.

(** [if (!!err) { err(e); }] *)
Definition forward_to_err (e : JSError) : M Locals unit :=
  l ← get;
  match err l with
  | Some g => invoke call_err g e
  | None => mret tt
  end.

Section Dispatch.
Context `{Exports}.

(** [set_cea_*]: assignments to the fields of a canceled event. *)
Definition set_cea_sessionId (ev : SpeechRecognitionCanceledEventArgs) (v : string) :=
  mkCanceledEventArgs (Some v) (cea_reason ev) (cea_errorDetails ev).
Definition set_cea_reason (ev : SpeechRecognitionCanceledEventArgs)
    (v : CancellationReason) :=
  mkCanceledEventArgs (cea_sessionId ev) (Some v) (cea_errorDetails ev).
Definition set_cea_errorDetails (ev : SpeechRecognitionCanceledEventArgs) (v : string) :=
  mkCanceledEventArgs (cea_sessionId ev) (cea_reason ev) (Some v).
Definition set_ea_sessionId (ev : SpeechRecognitionEventArgs) (v : string) :=
  mkEventArgs (Some v) (ea_result ev).
Definition set_ea_result (ev : SpeechRecognitionEventArgs)
    (v : SpeechRecognitionResult) :=
  mkEventArgs (ea_sessionId ev) (Some v).

(** [case "RecognitionEndedEvent"] *)
Definition onRecognitionEndedEvent (this : SpeechRecognizer)
    (Status : RecognitionCompletionStatus) (SessionId Error_ : string)
    : M Locals unit :=
  if bool_decide (Status ≠ Success) then
    let errorEvent := new_SpeechRecognitionCanceledEventArgs in
    let errorText := RecognitionCompletionStatus_name Status +:+ ": " +:+ Error_ in
    let errorEvent := set_cea_reason errorEvent Error in
    let errorEvent := set_cea_sessionId errorEvent SessionId in
    let errorEvent := set_cea_errorDetails errorEvent errorText in
    notify call_canceled (canceled this) errorEvent;;
    let result := new_SpeechRecognitionResult in
    let result := set_reason result Canceled in
    let result := set_errorDetails result errorText in
    l ← get;
    match cb l with
    | Some f => try_catch (invoke call_cb f result) forward_to_err
    | None => mret tt
    end
  else mret tt.

(** The result object built in [case "SpeechSimplePhraseEvent"]. *)
Definition simplePhraseResult (Result : ISimpleSpeechPhrase) : SpeechRecognitionResult :=
  let reason_ := implTranslateRecognitionResult (simple_RecognitionStatus Result) in
  let result := new_SpeechRecognitionResult in
  let result := set_reason result reason_ in
  let result := set_duration result (simple_Duration Result) in
  let result := set_offset result (simple_Duration Result) in
  let result := set_text result (simple_DisplayText Result) in
  let result := set_json result (JSON_stringify Result) in
  result.

(** [case "SpeechSimplePhraseEvent"] *)
Definition onSpeechSimplePhraseEvent (this : SpeechRecognizer)
    (SessionId : string) (Result : ISimpleSpeechPhrase) : M Locals unit :=
  let reason_ := implTranslateRecognitionResult (simple_RecognitionStatus Result) in
  let result := simplePhraseResult Result in
  (if bool_decide (reason_ = Canceled) then
     let ev := new_SpeechRecognitionCanceledEventArgs in
     let ev := set_cea_sessionId ev SessionId in
     let ev := set_cea_reason ev
                 (implTranslateCancelResult (simple_RecognitionStatus Result)) in
     notify call_canceled (canceled this) ev
   else
     let ev := new_SpeechRecognitionEventArgs in
     let ev := set_ea_sessionId ev SessionId in
     let ev := set_ea_result ev result in
     notify call_recognized (recognized this) ev);;
  l ← get;
  match cb l with
  | Some f =>
      try_catch (invoke call_cb f result) forward_to_err;;
      l ← get;
      put (mkLocals None (err l));;
      l ← get;
      put (mkLocals (cb l) None)
  | None => mret tt
  end.

(** [xs[0].Display]: reading a property of [undefined] throws. *)
Definition first_Display {St} (NBest : list IPhrase) : M St string :=
  match NBest !! 0%nat with
  | Some p => mret (Display p)
  | None => throw (TypeError "Cannot read property 'Display' of undefined")
  end.

(** The result object built in [case "SpeechDetailedPhraseEvent"]; the
    assignment of [text] can throw. *)
Definition detailedPhraseResult {St} (Result : IDetailedSpeechPhrase)
    : M St SpeechRecognitionResult :=
  let reason_ := implTranslateRecognitionResult (detailed_RecognitionStatus Result) in
  let result := new_SpeechRecognitionResult in
  let result := set_json result (JSON_stringify Result) in
  let result := set_offset result (detailed_Offset Result) in
  let result := set_duration result (detailed_Duration Result) in
  let result := set_reason result reason_ in
  if bool_decide (reason_ = RecognizedSpeech) then
    d ← first_Display (detailed_NBest Result);
    mret (set_text result d)
  else mret result.

(** [case "SpeechDetailedPhraseEvent"] *)
Definition onSpeechDetailedPhraseEvent (this : SpeechRecognizer)
    (SessionId : string) (Result : IDetailedSpeechPhrase) : M Locals unit :=
  let reason_ := implTranslateRecognitionResult (detailed_RecognitionStatus Result) in
  result ← detailedPhraseResult Result;
  (if bool_decide (reason_ = Canceled) then
     let ev := new_SpeechRecognitionCanceledEventArgs in
     let ev := set_cea_sessionId ev SessionId in
     let ev := set_cea_reason ev
                 (implTranslateCancelResult (detailed_RecognitionStatus Result)) in
     notify call_canceled (canceled this) ev
   else
     let ev := new_SpeechRecognitionEventArgs in
     let ev := set_ea_sessionId ev SessionId in
     let ev := set_ea_result ev result in
     notify call_recognized (recognized this) ev);;
  l ← get;
  match cb l with
  | Some f => try_catch (invoke call_cb f result) (fun _ => mret tt)
  | None => mret tt
  end.

(** The result object built in [case "SpeechHypothesisEvent"]. *)
Definition hypothesisResult (Result : ISpeechHypothesis) : SpeechRecognitionResult :=
  let result := new_SpeechRecognitionResult in
  let result := set_json result (JSON_stringify Result) in
  let result := set_offset result (hyp_Offset Result) in
  let result := set_duration result (hyp_Duration Result) in
  let result := set_text result (hyp_Text Result) in
  result.

(** [case "SpeechHypothesisEvent"] *)
Definition onSpeechHypothesisEvent (this : SpeechRecognizer)
    (SessionId : string) (Result : ISpeechHypothesis) : M Locals unit :=
  let ev := new_SpeechRecognitionEventArgs in
  let ev := set_ea_sessionId ev SessionId in
  let ev := set_ea_result ev (hypothesisResult Result) in
  notify call_recognizing (recognizing this) ev.

(** [implDispatchMessageHandler(event, cb, err)]: [cb] and [err] are the
    initial [Locals]. *)
Definition implDispatchMessageHandler (this : SpeechRecognizer)
    (event : SpeechRecognitionEvent) : M Locals unit :=
  match event with
  | RecognitionEndedEvent Status SessionId Error_ =>
      onRecognitionEndedEvent this Status SessionId Error_
  | SpeechSimplePhraseEvent SessionId Result =>
      onSpeechSimplePhraseEvent this SessionId Result
  | SpeechDetailedPhraseEvent SessionId Result =>
      onSpeechDetailedPhraseEvent this SessionId Result
  | SpeechHypothesisEvent SessionId Result =>
      onSpeechHypothesisEvent this SessionId Result
  | OtherEvent _ => mret tt
  end.

End Dispatch.

(* --------------------------------------------------------------------- *)
(** *** Property accessors *)

(** [get endpointId()] *)
Definition get_endpointId : M SpeechRecognizer (option string) :=
  this ← get;
  throwIfDisposed (disposedSpeechRecognizer this);;
  mret (getProperty (properties this) SpeechServiceConnection_EndpointId
          (Some "00000000-0000-0000-0000-000000000000")).

(** [set endpointId(value)].  Past [throwIfNullOrWhitespace] the value is a
    string; the [None] branch of the last [match] is never reached. *)
Definition set_endpointId (value : option string) : M SpeechRecognizer unit :=
  this ← get;
  throwIfDisposed (disposedSpeechRecognizer this);;
  throwIfNullOrWhitespace value "value";;
  match value with
  | Some v =>
      put (set_privProperties this
             (setProperty (properties this) SpeechServiceConnection_EndpointId v))
  | None => mret tt
  end.

(** [set authorizationToken(token)] *)
Definition set_authorizationToken (token : option string) : M SpeechRecognizer unit :=
  this ← get;
  throwIfNullOrWhitespace token "token";;
  match token with
  | Some v =>
      put (set_privProperties this
             (setProperty (properties this) SpeechServiceAuthorization_Token v))
  | None => mret tt
  end.

(** [get authorizationToken()] *)
Definition get_authorizationToken : M SpeechRecognizer (option string) :=
  this ← get;
  mret (getProperty (properties this) SpeechServiceAuthorization_Token None).

(** [get speechRecognitionLanguage()] *)
Definition get_speechRecognitionLanguage : M SpeechRecognizer (option string) :=
  this ← get;
  throwIfDisposed (disposedSpeechRecognizer this);;
  mret (getProperty (properties this) SpeechServiceConnection_RecoLanguage None).

(** [get outputFormat()] *)
Definition get_outputFormat : M SpeechRecognizer OutputFormat :=
  this ← get;
  throwIfDisposed (disposedSpeechRecognizer this);;
  if bool_decide
       (getProperty (properties this) OutputFormatPropertyName
          (Some (OutputFormat_name Simple))
        = Some (OutputFormat_name Simple))
  then mret Simple
  else mret Detailed.

(* --------------------------------------------------------------------- *)
(** *** Sessions *)

(** The function handed to [implRecognizerStart]: the arrow function of
    [recognizeOnceAsync], which closes over that call's [cb] and [err], or
    the one of [startContinuousRecognitionAsync]. *)
Inductive Sink : Type :=
| OneShotSink (cb : option (Handler SpeechRecognitionResult))
              (err : option (Handler JSError))
| ContinuousSink.

(** The recognizer together with the protocol engine it talks to: the next
    session the engine will create, and the sink each session was started
    with. *)
Record System : Type := mkSystem {
  recognizer : SpeechRecognizer;
  next_session : ServiceRecognizerBase;
  sinks : gmap nat Sink
}.

(** A method that only touches the instance, run inside the system. *)
Definition on_this {A} (m : M SpeechRecognizer A) : M System A :=
  fun s =>
    match m (recognizer s) with
    | (t, o, r) => (t, mkSystem o (next_session s) (sinks s), r)
    end.

(** A call of a function whose parameters are [l]; its locals die with it. *)
Definition call_with {St A} (l : Locals) (body : M Locals A) : M St A :=
  fun s =>
    match body l with
    | (t, _, r) => (t, s, r)
    end.

(** [implCloseExistingRecognizer()] *)
Definition implCloseExistingRecognizer : M SpeechRecognizer unit :=
  this ← get;
  match reco this with
  | Some r =>
      emit (AudioSource_TurnOff r);;
      emit (Dispose r);;
      put (set_reco this None)
  | None => mret tt
  end.

(** Modelled from the spec: [implRecognizerSetup] of the base class
    [Recognizer], which is not part of the sources at hand ([createSession]
    of the engine): returns the handle of a new session, and fails if the
    configuration lacks the recognition language. *)
Definition implRecognizerSetup (mode : RecognitionMode)
    : M System ServiceRecognizerBase :=
  s ← get;
  match getProperty (properties (recognizer s))
          SpeechServiceConnection_RecoLanguage None with
  | Some _ =>
      let r := next_session s in
      emit (Setup mode r);;
      put (mkSystem (recognizer s) (S r) (sinks s));;
      mret r
  | None => throw (ArgumentNullOrWhitespace SpeechServiceConnection_RecoLanguage)
  end.

(** Modelled from the spec: [implRecognizerStart] of the base class
    [Recognizer], which is not part of the sources at hand
    ([SessionHandle.start(onEvent)]): the session keeps the sink and calls
    it for every event it emits. *)
Definition implRecognizerStart (r : ServiceRecognizerBase) (k : Sink) : M System unit :=
  s ← get;
  emit (Start r);;
  put (mkSystem (recognizer s) (next_session s) (<[r := k]> (sinks s))).

(** Modelled from the spec: [dispose] of the base class [Recognizer], which
    is not part of the sources at hand; it is only recorded. *)
Definition super_dispose_ (disposing : bool) : M SpeechRecognizer unit :=
  emit (super_dispose disposing).

(** [this.reco = r] *)
Definition assign_reco (r : ServiceRecognizerBase) : M SpeechRecognizer unit :=
  this ← get;
  put (set_reco this (Some r)).

(** [if (!!cb) { try { cb(); } catch (e) { if (!!err) { err(e); } } }] *)
Definition report (act : Action) (cb0 : option (Handler unit))
    (err0 : option (Handler JSError)) : M SpeechRecognizer unit :=
  match cb0 with
  | Some f =>
      try_catch (invoke (fun _ => act) f tt)
        (fun e => match err0 with
                  | Some g => invoke call_err g e
                  | None => mret tt
                  end)
  | None => mret tt
  end.

Section Sessions.
Context `{Exports}.

(** [recognizeOnceAsync(cb, err)] *)
Definition recognizeOnceAsync (cb : option (Handler SpeechRecognitionResult))
    (err : option (Handler JSError)) : M System unit :=
  s ← get;
  throwIfDisposed (disposedSpeechRecognizer (recognizer s));;
  on_this implCloseExistingRecognizer;;
  r ← implRecognizerSetup Interactive;
  on_this (assign_reco r);;
  implRecognizerStart r (OneShotSink cb err).

(** [startContinuousRecognitionAsync(cb, err)] *)
Definition startContinuousRecognitionAsync (cb0 : option (Handler unit))
    (err0 : option (Handler JSError)) : M System unit :=
  s ← get;
  throwIfDisposed (disposedSpeechRecognizer (recognizer s));;
  on_this implCloseExistingRecognizer;;
  r ← implRecognizerSetup Conversation;
  on_this (assign_reco r);;
  implRecognizerStart r ContinuousSink;;
  on_this (report call_started cb0 err0).

(** [stopContinuousRecognitionAsync(cb, err)] *)
Definition stopContinuousRecognitionAsync (cb0 : option (Handler unit))
    (err0 : option (Handler JSError)) : M System unit :=
  s ← get;
  throwIfDisposed (disposedSpeechRecognizer (recognizer s));;
  on_this implCloseExistingRecognizer;;
  on_this (report call_stopped cb0 err0).

(** [dispose(disposing)] *)
Definition dispose (disposing : bool) : M SpeechRecognizer unit :=
  this ← get;
  if disposedSpeechRecognizer this then mret tt
  else
    (if disposing then
       implCloseExistingRecognizer;;
       this ← get;
       put (set_disposedSpeechRecognizer this true)
     else mret tt);;
    super_dispose_ disposing.

(** [close()] *)
Definition close : M System unit :=
  s ← get;
  throwIfDisposed (disposedSpeechRecognizer (recognizer s));;
  on_this (dispose true).

(** [!x] for a field that holds an object or [undefined]. *)
Definition not_ {A} (x : option A) : bool :=
  match x with
  | Some _ => false
  | None => true
  end.

(** The body of a sink, run when the engine calls it with [event].  It reads
    the fields of the recognizer as they are at that moment. *)
Definition sink (k : Sink) (event : SpeechRecognitionEvent) : M System unit :=
  s ← get;
  let this := recognizer s in
  if disposedSpeechRecognizer this || not_ (reco this) then mret tt
  else
    match k with
    | OneShotSink cb err =>
        call_with (mkLocals cb err) (implDispatchMessageHandler this event)
    | ContinuousSink =>
        call_with (mkLocals None None) (implDispatchMessageHandler this event)
    end.

(** The engine emits [event] in session [r]: it calls the sink the session
    was started with. *)
Definition deliver (r : ServiceRecognizerBase) (event : SpeechRecognitionEvent)
    : M System unit :=
  s ← get;
  match sinks s !! r with
  | Some k => sink k event
  | None => mret tt
  end.

(** A sequence of events of session [r], in order; an exception that leaves
    a sink ends the run. *)
Fixpoint deliver_all (r : ServiceRecognizerBase) (events : list SpeechRecognitionEvent)
    : M System unit :=
  match events with
  | [] => mret tt
  | event :: rest => deliver r event;; deliver_all r rest
  end.

End Sessions.

(** How often the completion pair of a one-shot call was invoked. *)
Definition is_completion (a : Action) : bool :=
  match a with
  | call_cb _ | call_err _ => true
  | _ => false
  end.

Definition completions (t : list Action) : nat :=
  length (List.filter is_completion t).

(** Calls of user functions, as opposed to calls into the engine. *)
Definition is_user_call (a : Action) : bool :=
  match a with
  | call_canceled _ | call_recognized _ | call_recognizing _
  | call_cb _ | call_err _ | call_started | call_stopped => true
  | _ => false
  end.

End SpeechRecognizer.


(* ===================================================================== *)
(** ** A service to run the recognizer against *)
(* ===================================================================== *)

Module Service.
Import SpeechRecognizer.

(** Modelled from the spec: the status codes of the service and the Status
    Translator (section 4.1), which live in [../common.speech/Exports] and
    are not part of the sources at hand.  A success code with text is
    recognized speech; no-speech, silence and end-of-dictation codes are a
    no-match; an error code is a cancellation, with cancellation reason
    [Error]. *)
Inductive Status2 : Type :=
| St_Success | St_NoMatch | St_InitialSilenceTimeout | St_EndOfDictation | St_Error.

Inductive CompletionStatus : Type :=
| Cs_Success | Cs_AudioSourceError | Cs_ConnectError | Cs_UnknownError.

#[global] Instance CompletionStatus_eq_dec : EqDecision CompletionStatus.
Proof. solve_decision. Defined.

Definition CompletionStatus_name (c : CompletionStatus) : string :=
  match c with
  | Cs_Success => "Success"
  | Cs_AudioSourceError => "AudioSourceError"
  | Cs_ConnectError => "ConnectError"
  | Cs_UnknownError => "UnknownError"
  end.

Definition translateRecognitionResult (st : Status2) : ResultReason :=
  match st with
  | St_Success => RecognizedSpeech
  | St_NoMatch | St_InitialSilenceTimeout | St_EndOfDictation => NoMatch
  | St_Error => Canceled
  end.

Definition translateCancelResult (st : Status2) : CancellationReason :=
  match st with
  | St_Success | St_NoMatch | St_EndOfDictation => EndOfStream
  | St_InitialSilenceTimeout | St_Error => Error
  end.

(** The serialised payload is never inspected by the recognizer; the sample
    service renders every payload as the same text. *)
#[global] Instance exports : Exports := {|
  RecognitionStatus2 := Status2;
  RecognitionCompletionStatus := CompletionStatus;
  Success := Cs_Success;
  RecognitionCompletionStatus_name := CompletionStatus_name;
  implTranslateRecognitionResult := translateRecognitionResult;
  implTranslateCancelResult := translateCancelResult;
  JSON_stringify := fun _ _ => "{}"
|}.

(** User functions: one that returns and one that throws. *)
Definition returns {A} : Handler A := fun _ => None.
Definition throws {A} (msg : string) : Handler A := fun _ => Some (Thrown msg).

(** A recognizer as the constructor leaves it (language [en-US]), with the
    given subscribers. *)
Definition fresh (recognizing_ recognized_ : option (Handler SpeechRecognitionEventArgs))
    (canceled_ : option (Handler SpeechRecognitionCanceledEventArgs)) : System :=
  mkSystem
    (mkSpeechRecognizer false
       (<[SpeechServiceConnection_RecoLanguage := "en-US"]>
          (<[SpeechServiceAuthorization_Token := "token"]> ∅))
       recognizing_ recognized_ canceled_ None)
    0%nat ∅.

Definition all_subscribed : System :=
  fresh (Some returns) (Some returns) (Some returns).

(** Sample events. *)
Definition hello : SpeechRecognitionEvent :=
  SpeechSimplePhraseEvent "s1" (mkSimple St_Success "hello world" 100 7).
Definition hypothesis_hel : SpeechRecognitionEvent :=
  SpeechHypothesisEvent "s1" (mkHypothesis "hel" 100 3).
Definition ended_with_error : SpeechRecognitionEvent :=
  RecognitionEndedEvent Cs_ConnectError "s1" "timed out".
Definition detailed_without_alternative : SpeechRecognitionEvent :=
  SpeechDetailedPhraseEvent "s1" (mkDetailed St_Success [] 100 7).
Definition detailed_hello : SpeechRecognitionEvent :=
  SpeechDetailedPhraseEvent "s1"
    (mkDetailed St_Success [mkPhrase "hello" "Hello."; mkPhrase "hallo" "Hallo."] 100 7).

(** Running a statement from a state, keeping the state it leaves. *)
Definition after {A} (m : M System A) (s : System) : System := state_of (m s).

(** A continuous recognition has been started: session 0 is held. *)
Definition listening : System :=
  after (startContinuousRecognitionAsync None None) all_subscribed.

(** A one-shot recognition has been started with a completion pair that
    returns: session 0 is held. *)
Definition awaiting : System :=
  after (recognizeOnceAsync (Some returns) (Some returns)) all_subscribed.

End Service.


(* ===================================================================== *)
(** ** What a phrase event is expected to cause *)
(* ===================================================================== *)

Module Expected.
Import SpeechRecognizer.

Section Expected.
Context `{Exports}.

(** The subscriber notified for a phrase with status [status] and result
    [result]: [canceled] for a cancellation, [recognized] otherwise, if
    subscribed. *)
Definition subscriber_calls (this : SpeechRecognizer) (SessionId : string)
    (status : RecognitionStatus2) (result : SpeechRecognitionResult) : list Action :=
  if bool_decide (implTranslateRecognitionResult status = Canceled) then
    match canceled this with
    | Some _ =>
        [call_canceled
           (mkCanceledEventArgs (Some SessionId)
              (Some (implTranslateCancelResult status)) None)]
    | None => []
    end
  else
    match recognized this with
    | Some _ => [call_recognized (mkEventArgs (Some SessionId) (Some result))]
    | None => []
    end.

(** The calls of the completion pair [l] for [result]: [cb], if present, and
    then [err] with what [cb] threw, if it threw, [err] is present and the
    site forwards ([forward]). *)
Definition completion_calls (forward : bool) (l : Locals)
    (result : SpeechRecognitionResult) : list Action :=
  match cb l with
  | Some f =>
      call_cb result ::
      match f result, err l with
      | Some e, Some _ => if forward then [call_err e] else []
      | _, _ => []
      end
  | None => []
  end.

(** What the completion calls leave behind: the exception of [err], when
    [cb] threw, the site forwards and [err] threw as well. *)
Definition completion_outcome (forward : bool) (l : Locals)
    (result : SpeechRecognitionResult) : JSError + unit :=
  match cb l with
  | Some f =>
      match f result, err l with
      | Some e, Some g =>
          if forward then
            match g e with
            | Some e' => inl e'
            | None => inr tt
            end
          else inr tt
      | _, _ => inr tt
      end
  | None => inr tt
  end.

End Expected.

(** The same subscriber, except that it never throws. *)
Definition never_throws {A} (h : Handler A) : Handler A := fun _ => None.

Definition quiet_subscribers (this : SpeechRecognizer) : SpeechRecognizer :=
  mkSpeechRecognizer (disposedSpeechRecognizer this) (privProperties this)
    (never_throws <$> recognizing this) (never_throws <$> recognized this)
    (never_throws <$> canceled this) (reco this).

Definition quiet_system (s : System) : System :=
  mkSystem (quiet_subscribers (recognizer s)) (next_session s) (sinks s).

(** An action that hands a result, or cancellation event-args, to one of
    the three subscriber channels does so with a reason. *)
Definition carries_reason (a : Action) : Prop :=
  match a with
  | call_canceled ev => is_Some (cea_reason ev)
  | call_recognized ev | call_recognizing ev =>
      exists r, ea_result ev = Some r /\ is_Some (reason r)
  | _ => True
  end.

(** No user function is called in [t]. *)
Definition silent (t : list Action) : Prop :=
  Forall (fun a => is_user_call a = false) t.

(** The parameters a sink passes to [implDispatchMessageHandler]. *)
Definition sink_locals (k : Sink) : Locals :=
  match k with
  | OneShotSink cb err => mkLocals cb err
  | ContinuousSink => mkLocals None None
  end.

(** The guard of both sinks. *)
Definition guarded (s : System) : bool :=
  disposedSpeechRecognizer (recognizer s) || not_ (reco (recognizer s)).

(** The calls into the engine that tear down the session held, if any. *)
Definition teardown_calls (this : SpeechRecognizer) : list Action :=
  match reco this with
  | Some r => [AudioSource_TurnOff r; Dispose r]
  | None => []
  end.

(** [value] is [null] or blank. *)
Definition null_or_blank (value : option string) : bool :=
  match value with
  | Some v => is_blank v
  | None => true
  end.

End Expected.

(* ===================================================================== *)
(** ** Construction and sequences of calls *)
(* ===================================================================== *)

Module Lifecycle.
Import SpeechRecognizer.

(** Modelled from the spec: [Contracts.throwIfNull] of [./Contracts], which
    is not part of the sources at hand.  A null ([None]) argument fails with
    a precondition error naming the argument. *)
Definition throwIfNull {St A} (param : option A) (name : string) : M St unit :=
  match param with
  | None => throw (ArgumentNullOrWhitespace name)
  | Some _ => mret tt
  end.

(** [constructor(speechConfig, audioConfig?)].  The configuration is seen
    through its property collection, which the instance copies; the audio
    configuration goes to the base class and is not modelled.  The fields
    declared without initialiser ([reco] and the three subscribers) start
    [undefined].  Past [throwIfNull] the configuration is an object; the
    [None] branch of the [match] is never reached. *)
Definition new_SpeechRecognizer {St} (speechConfig : option (gmap string string))
    : M St SpeechRecognizer :=
  throwIfNull speechConfig "speechConfig";;
  match speechConfig with
  | Some properties_ =>
      let this := mkSpeechRecognizer false properties_ None None None None in
      throwIfNullOrWhitespace
        (getProperty properties_ SpeechServiceConnection_RecoLanguage None)
        SpeechServiceConnection_RecoLanguage;;
      mret this
  | None => throw (ArgumentNullOrWhitespace "speechConfig")
  end.

Section Operations.
Context `{Exports}.

(** What can happen to a recognizer from outside: a call of one of its
    public methods or setters, or the engine emitting an event in a
    session. *)
Inductive Operation : Type :=
| RecognizeOnceAsync (cb : option (Handler SpeechRecognitionResult))
                     (err : option (Handler JSError))
| StartContinuousRecognitionAsync (cb0 : option (Handler unit))
                                  (err0 : option (Handler JSError))
| StopContinuousRecognitionAsync (cb0 : option (Handler unit))
                                 (err0 : option (Handler JSError))
| Close
| SetEndpointId (value : option string)
| SetAuthorizationToken (token : option string)
| Emit (r : ServiceRecognizerBase) (event : SpeechRecognitionEvent).

Definition perform (op : Operation) : M System unit :=
  match op with
  | RecognizeOnceAsync cb err => recognizeOnceAsync cb err
  | StartContinuousRecognitionAsync cb0 err0 => startContinuousRecognitionAsync cb0 err0
  | StopContinuousRecognitionAsync cb0 err0 => stopContinuousRecognitionAsync cb0 err0
  | Close => close
  | SetEndpointId value => on_this (set_endpointId value)
  | SetAuthorizationToken token => on_this (set_authorizationToken token)
  | Emit r event => deliver r event
  end.

(** One operation after the other; an exception ends the operation that
    threw it and the next one starts from the state left behind. *)
Fixpoint perform_all (ops : list Operation) (s : System) : list Action * System :=
  match ops with
  | [] => ([], s)
  | op :: rest =>
      let x := perform op s in
      let y := perform_all rest (state_of x) in
      (trace_of x ++ fst y, snd y)
  end.

(** The two methods that start a recognition. *)
Definition starts_recognition (op : Operation) : bool :=
  match op with
  | RecognizeOnceAsync _ _ | StartContinuousRecognitionAsync _ _ => true
  | _ => false
  end.

(** What a call of a subscriber carries, given the event that caused it:
    [recognized] a result whose reason is the translated status of the
    phrase; [canceled] the reason [Error] for the end of a session and the
    translated cancellation reason for a phrase; [recognizing] a result
    with the text, offset, duration and serialised payload of the
    hypothesis and no reason.  No other event reaches these subscribers. *)
Definition dispatched_for (event : SpeechRecognitionEvent) (a : Action) : Prop :=
  match a, event with
  | call_canceled ev, RecognitionEndedEvent _ _ _ => cea_reason ev = Some Error
  | call_canceled ev, SpeechSimplePhraseEvent _ p =>
      cea_reason ev = Some (implTranslateCancelResult (simple_RecognitionStatus p))
  | call_canceled ev, SpeechDetailedPhraseEvent _ p =>
      cea_reason ev = Some (implTranslateCancelResult (detailed_RecognitionStatus p))
  | call_recognized ev, SpeechSimplePhraseEvent _ p =>
      exists r, ea_result ev = Some r /\
        reason r = Some (implTranslateRecognitionResult (simple_RecognitionStatus p))
  | call_recognized ev, SpeechDetailedPhraseEvent _ p =>
      exists r, ea_result ev = Some r /\
        reason r = Some (implTranslateRecognitionResult (detailed_RecognitionStatus p))
  | call_recognizing ev, SpeechHypothesisEvent _ p =>
      ea_result ev =
        Some (mkResult None (Some (hyp_Text p)) (Some (hyp_Offset p))
                (Some (hyp_Duration p)) (Some (JSON_stringify p)) None)
  | call_canceled _, _ | call_recognized _, _ | call_recognizing _, _ => False
  | _, _ => True
  end.

(** The four session methods and the events, as opposed to the setters. *)
Definition is_session_operation (op : Operation) : bool :=
  match op with
  | SetEndpointId _ | SetAuthorizationToken _ => false
  | _ => true
  end.

End Operations.

(** The sessions set up and not yet disposed, read off the calls into the
    engine. *)
Definition sessions_step (live : list ServiceRecognizerBase) (a : Action)
    : list ServiceRecognizerBase :=
  match a with
  | Setup _ r => r :: live
  | Dispose r => List.filter (fun x => negb (Nat.eqb x r)) live
  | _ => live
  end.

Definition sessions_live (live : list ServiceRecognizerBase) (t : list Action)
    : list ServiceRecognizerBase :=
  fold_left sessions_step t live.

(** The session the recognizer holds, as a list. *)
Definition held (s : System) : list ServiceRecognizerBase :=
  match reco (recognizer s) with
  | Some r => [r]
  | None => []
  end.

(** Every [Dispose r] comes right after [AudioSource_TurnOff r], and every
    turn-off is followed by that disposal. *)
Fixpoint teardown_ordered (t : list Action) : bool :=
  match t with
  | [] => true
  | AudioSource_TurnOff r :: rest =>
      match rest with
      | Dispose r' :: rest' => Nat.eqb r r' && teardown_ordered rest'
      | _ => false
      end
  | Dispose _ :: _ => false
  | _ :: rest => teardown_ordered rest
  end.

(** What a setter for the property [key] may do to an instance: nothing but
    store a value under [key]. *)
Definition writes_only (key : string) (this this' : SpeechRecognizer) : Prop :=
  exists p',
    this' = set_privProperties this p' /\
    forall k, k <> key -> p' !! k = properties this !! k.

(** What no operation touches: the subscribers, every property other than
    the endpoint id and the authorization token, and a disposed flag once
    it is set. *)
Definition configuration_kept (this this' : SpeechRecognizer) : Prop :=
  recognizing this' = recognizing this /\
  recognized this' = recognized this /\
  canceled this' = canceled this /\
  (forall k, k <> SpeechServiceConnection_EndpointId ->
             k <> SpeechServiceAuthorization_Token ->
             properties this' !! k = properties this !! k) /\
  (disposedSpeechRecognizer this = true -> disposedSpeechRecognizer this' = true).

(** The actions of a kind in a trace. *)
Definition is_subscriber_call (a : Action) : bool :=
  match a with
  | call_canceled _ | call_recognized _ | call_recognizing _ => true
  | _ => false
  end.

Definition is_call_err (a : Action) : bool :=
  match a with
  | call_err _ => true
  | _ => false
  end.

Definition is_call_cb (a : Action) : bool :=
  match a with
  | call_cb _ => true
  | _ => false
  end.

(** The calls of the callback pair of [startContinuousRecognitionAsync] and
    [stopContinuousRecognitionAsync], and what they leave behind. *)
Definition report_calls (act : Action) (cb0 : option (Handler unit))
    (err0 : option (Handler JSError)) : list Action :=
  match cb0 with
  | Some f =>
      act :: match f tt, err0 with
             | Some e, Some _ => [call_err e]
             | _, _ => []
             end
  | None => []
  end.

Definition report_outcome (cb0 : option (Handler unit))
    (err0 : option (Handler JSError)) : JSError + unit :=
  match cb0 with
  | Some f =>
      match f tt, err0 with
      | Some e, Some g =>
          match g e with
          | Some e' => inl e'
          | None => inr tt
          end
      | _, _ => inr tt
      end
  | None => inr tt
  end.

End Lifecycle.

(* ===================================================================== *)
(** ** Properties of AudioStreamFormat *)
(* ===================================================================== *)

Module AudioStreamFormatFacts.
Import AudioStreamFormat.

Section WithNumber.
Variable number : Type.
Variable mul : number -> number -> number.
Variable Math_max : number -> number -> number.
Variable lit : Z -> number.

Lemma default_param_given (v dflt : number) :
  default_param number (Some v) dflt = v.
Proof. reflexivity. Qed.

(** C10.  Whatever the three arguments, the format returned by
    [getWaveFormatPCM(samplesPerSecond, bitsPerSample, channels)] has
    [formatTag = 1], [avgBytesPerSec = samplesPerSecond * channels *
    bitsPerSample] and [blockAlign = channels * max(bitsPerSample, 8)] (and
    keeps the three arguments); [getDefaultInputFormat] returns the format
    with [samplesPerSec = 16000], [bitsPerSample = 16], [channels = 1], the
    one [getWaveFormatPCM(16000, 16, 1)] returns. *)
Theorem getWaveFormatPCM_fields (samplesPerSecond bitsPerSample_ channels_ : number) :
  let f := getWaveFormatPCM number mul Math_max lit
             samplesPerSecond bitsPerSample_ channels_ in
  let d := getDefaultInputFormat number mul Math_max lit in
  formatTag f = lit 1 /\
  avgBytesPerSec f = mul (mul samplesPerSecond channels_) bitsPerSample_ /\
  blockAlign f = mul channels_ (Math_max bitsPerSample_ (lit 8)) /\
  samplesPerSec f = samplesPerSecond /\
  bitsPerSample f = bitsPerSample_ /\
  channels f = channels_ /\
  samplesPerSec d = lit 16000 /\
  bitsPerSample d = lit 16 /\
  channels d = lit 1 /\
  d = getWaveFormatPCM number mul Math_max lit (lit 16000) (lit 16) (lit 1).
Proof.
  cbv zeta.
  unfold getDefaultInputFormat, Impl_getDefaultInputFormat, getWaveFormatPCM,
    new_AudioStreamFormatImpl.
  rewrite !default_param_given.
  repeat split.
Qed.

End WithNumber.

(** On integers: 16 kHz, 16 bit, mono. *)
Example default_format_Z :
  getDefaultInputFormat_Z = mkAudioStreamFormatImpl Z 1 1 16000 16 256000 16.
Proof. reflexivity. Qed.

(** Fewer than 8 bits per sample still align blocks on 8. *)
Example four_bit_stereo_Z :
  blockAlign (getWaveFormatPCM_Z 8000 4 2) = 16 /\
  avgBytesPerSec (getWaveFormatPCM_Z 8000 4 2) = 64000.
Proof. split; reflexivity. Qed.

End AudioStreamFormatFacts.


(* ===================================================================== *)
(** ** Properties of SpeechRecognizer: one event *)
(* ===================================================================== *)

Module SpeechRecognizerFacts.
Import SpeechRecognizer Expected.

(** Unfolds the statement combinators. *)
Ltac run :=
  cbv [mbind M_bind mret M_ret throw get put emit try_catch invoke
       forward_to_err call_with on_this trace_of state_of outcome_of
       throwIfDisposed throwIfNullOrWhitespace].

(** A notification performs the call, if there is a subscriber, and always
    returns: what the subscriber does is not visible after it. *)
Lemma notify_run {St A} (act : A -> Action) (x : option (Handler A)) (ev : A) (s : St) :
  notify act x ev s = (match x with Some _ => [act ev] | None => [] end, s, inr tt).
Proof.
  destruct x as [h|]; [|reflexivity].
  unfold notify. run. destruct (h ev); reflexivity.
Qed.

Section Dispatch.
Context `{Exports}.

(** The completion calls of the sites that forward to [err]. *)
Lemma report_forwarding_run (f : Handler SpeechRecognitionResult) e result :
  try_catch (invoke call_cb f result) forward_to_err (mkLocals (Some f) e) =
  (completion_calls true (mkLocals (Some f) e) result, mkLocals (Some f) e,
   completion_outcome true (mkLocals (Some f) e) result).
Proof.
  unfold completion_calls, completion_outcome. run. simpl.
  destruct (f result) as [x|]; [|reflexivity].
  destruct e as [g|]; [|reflexivity].
  destruct (g x); reflexivity.
Qed.

(** [case "SpeechHypothesisEvent"], run. *)
Lemma hypothesis_run this sid p l :
  implDispatchMessageHandler this (SpeechHypothesisEvent sid p) l =
  (match recognizing this with
   | Some _ => [call_recognizing (mkEventArgs (Some sid) (Some (hypothesisResult p)))]
   | None => []
   end, l, inr tt).
Proof.
  unfold implDispatchMessageHandler, onSpeechHypothesisEvent.
  rewrite notify_run. reflexivity.
Qed.

(** [case "RecognitionEndedEvent"], run. *)
Lemma ended_run this Status sid error l :
  implDispatchMessageHandler this (RecognitionEndedEvent Status sid error) l =
  if bool_decide (Status ≠ Success) then
    let errorText := RecognitionCompletionStatus_name Status +:+ ": " +:+ error in
    let result := mkResult (Some Canceled) None None None None (Some errorText) in
    (match canceled this with
     | Some _ =>
         [call_canceled (mkCanceledEventArgs (Some sid) (Some Error) (Some errorText))]
     | None => []
     end ++ completion_calls true l result, l, completion_outcome true l result)
  else ([], l, inr tt).
Proof.
  unfold implDispatchMessageHandler, onRecognitionEndedEvent.
  destruct (bool_decide (Status ≠ Success)); [|reflexivity].
  cbv zeta. cbv [mbind M_bind]. rewrite notify_run.
  cbv [get]. destruct l as [c e]. cbn [cb].
  destruct c as [f|].
  - rewrite report_forwarding_run. reflexivity.
  - destruct (canceled this); reflexivity.
Qed.

(** [case "SpeechSimplePhraseEvent"], run: the calls, the locals left and
    the outcome. *)
Lemma simple_run this sid p l :
  implDispatchMessageHandler this (SpeechSimplePhraseEvent sid p) l =
  (subscriber_calls this sid (simple_RecognitionStatus p) (simplePhraseResult p)
   ++ completion_calls true l (simplePhraseResult p),
   match cb l, completion_outcome true l (simplePhraseResult p) with
   | Some _, inr _ => mkLocals None None
   | _, _ => l
   end,
   completion_outcome true l (simplePhraseResult p)).
Proof.
  unfold implDispatchMessageHandler, onSpeechSimplePhraseEvent, subscriber_calls.
  cbv zeta. cbv [mbind M_bind].
  set (result := simplePhraseResult p).
  assert (Hsub : forall n : M Locals unit,
    (if bool_decide (implTranslateRecognitionResult (simple_RecognitionStatus p) = Canceled)
     then notify call_canceled (canceled this)
            (set_cea_reason
               (set_cea_sessionId new_SpeechRecognitionCanceledEventArgs sid)
               (implTranslateCancelResult (simple_RecognitionStatus p)))
     else notify call_recognized (recognized this)
            (set_ea_result (set_ea_sessionId new_SpeechRecognitionEventArgs sid) result)) l
    = (subscriber_calls this sid (simple_RecognitionStatus p) result, l, inr tt)).
  { intros _. unfold subscriber_calls.
    destruct (bool_decide _); rewrite notify_run; reflexivity. }
  rewrite (Hsub (mret tt)). unfold subscriber_calls.
  cbv [get]. destruct l as [c e]. cbn [cb].
  destruct c as [f|].
  - rewrite report_forwarding_run.
    destruct (completion_outcome true (mkLocals (Some f) e) result) as [x|[]] eqn:E;
      cbn; rewrite ?app_nil_r; reflexivity.
  - cbn. rewrite !app_nil_r. reflexivity.
Qed.

(** [detailedPhraseResult], run. *)
Lemma detailedPhraseResult_run {St} p (s : St) :
  detailedPhraseResult p s =
  let reason_ := implTranslateRecognitionResult (detailed_RecognitionStatus p) in
  let result :=
    mkResult (Some reason_) None (Some (detailed_Offset p))
      (Some (detailed_Duration p)) (Some (JSON_stringify p)) None in
  if bool_decide (reason_ = RecognizedSpeech) then
    match detailed_NBest p with
    | first :: _ => ([], s, inr (set_text result (Display first)))
    | [] => ([], s, inl (TypeError "Cannot read property 'Display' of undefined"))
    end
  else ([], s, inr result).
Proof.
  unfold detailedPhraseResult. cbv zeta.
  destruct (bool_decide _); [|reflexivity].
  destruct (detailed_NBest p); reflexivity.
Qed.

Lemma detailedPhraseResult_pure {St} p (s : St) :
  trace_of (detailedPhraseResult p s) = [] /\ state_of (detailedPhraseResult p s) = s.
Proof.
  rewrite detailedPhraseResult_run. cbv zeta.
  destruct (bool_decide _); [|split; reflexivity].
  destruct (detailed_NBest p); split; reflexivity.
Qed.

(** [case "SpeechDetailedPhraseEvent"], run. *)
Lemma detailed_run this sid p l :
  implDispatchMessageHandler this (SpeechDetailedPhraseEvent sid p) l =
  match outcome_of (detailedPhraseResult p l) with
  | inr result =>
      (subscriber_calls this sid (detailed_RecognitionStatus p) result
       ++ completion_calls false l result, l, inr tt)
  | inl e => ([], l, inl e)
  end.
Proof.
  unfold implDispatchMessageHandler, onSpeechDetailedPhraseEvent.
  cbv zeta. cbv [mbind M_bind].
  destruct (detailedPhraseResult_pure p l) as [Ht Hs].
  destruct (detailedPhraseResult p l) as [[t s'] [e|result]];
    cbn in Ht, Hs; subst t s'; cbn [outcome_of snd]; [reflexivity|].
  assert (Hsub :
    (if bool_decide (implTranslateRecognitionResult (detailed_RecognitionStatus p) = Canceled)
     then notify call_canceled (canceled this)
            (set_cea_reason
               (set_cea_sessionId new_SpeechRecognitionCanceledEventArgs sid)
               (implTranslateCancelResult (detailed_RecognitionStatus p)))
     else notify call_recognized (recognized this)
            (set_ea_result (set_ea_sessionId new_SpeechRecognitionEventArgs sid) result)) l
    = (subscriber_calls this sid (detailed_RecognitionStatus p) result, l, inr tt)).
  { unfold subscriber_calls.
    destruct (bool_decide _); rewrite notify_run; reflexivity. }
  rewrite Hsub. cbv [get]. destruct l as [c e]. cbn [cb app].
  unfold completion_calls. cbn [cb err].
  destruct c as [f|]; [|reflexivity].
  run. destruct (f result), e; reflexivity.
Qed.

(** A subscriber that throws leaves the same calls, locals and outcome as
    one that returns. *)
Lemma dispatch_quiet this event l :
  implDispatchMessageHandler (quiet_subscribers this) event l =
  implDispatchMessageHandler this event l.
Proof.
  destruct event as [Status sid error|sid p|sid p|sid p|name].
  - rewrite !ended_run. cbn [quiet_subscribers canceled].
    destruct (canceled this); reflexivity.
  - rewrite !simple_run. unfold subscriber_calls. cbn [quiet_subscribers canceled recognized].
    destruct (canceled this), (recognized this); reflexivity.
  - rewrite !detailed_run. unfold subscriber_calls. cbn [quiet_subscribers canceled recognized].
    destruct (canceled this), (recognized this); reflexivity.
  - rewrite !hypothesis_run. cbn [quiet_subscribers recognizing].
    destruct (recognizing this); reflexivity.
  - reflexivity.
Qed.

(* ===================================================================== *)
(** ** Properties of SpeechRecognizer: sinks and sessions *)
(* ===================================================================== *)

(** A sink, run: nothing behind the guard, the dispatch otherwise; the
    system is left as it was. *)
Lemma sink_run k event s :
  sink k event s =
  if guarded s then ([], s, inr tt)
  else
    let d := implDispatchMessageHandler (recognizer s) event (sink_locals k) in
    (trace_of d, s, outcome_of d).
Proof.
  unfold sink, guarded. cbv [mbind M_bind get]. cbn [app].
  destruct (disposedSpeechRecognizer (recognizer s) || not_ (reco (recognizer s)));
    [reflexivity|].
  destruct k as [c e|]; cbn [sink_locals]; unfold call_with;
    match goal with |- context [implDispatchMessageHandler ?a ?b ?c] =>
      destruct (implDispatchMessageHandler a b c) as [[t l'] o] end;
    reflexivity.
Qed.

Lemma sink_state k event s : state_of (sink k event s) = s.
Proof. rewrite sink_run. destruct (guarded s); reflexivity. Qed.

Lemma deliver_run r event s :
  deliver r event s =
  match sinks s !! r with
  | Some k => sink k event s
  | None => ([], s, inr tt)
  end.
Proof.
  unfold deliver. cbv [mbind M_bind get]. cbn [app].
  destruct (sinks s !! r) as [k|]; [|reflexivity].
  destruct (sink k event s) as [[t s'] o]. reflexivity.
Qed.

Lemma deliver_state r event s : state_of (deliver r event s) = s.
Proof.
  rewrite deliver_run. destruct (sinks s !! r); [apply sink_state|reflexivity].
Qed.

Lemma deliver_all_cons r event rest s :
  deliver_all r (event :: rest) s =
  match outcome_of (deliver r event s) with
  | inl e => (trace_of (deliver r event s), s, inl e)
  | inr _ =>
      (trace_of (deliver r event s) ++ trace_of (deliver_all r rest s),
       state_of (deliver_all r rest s), outcome_of (deliver_all r rest s))
  end.
Proof.
  cbn [deliver_all]. cbv [mbind M_bind].
  pose proof (deliver_state r event s) as Hs.
  destruct (deliver r event s) as [[t s'] [e|u]]; cbn in Hs; subst s'.
  - reflexivity.
  - cbn [outcome_of trace_of fst snd].
    destruct (deliver_all r rest s) as [[t' s''] o]. reflexivity.
Qed.

Lemma deliver_all_state r events s : state_of (deliver_all r events s) = s.
Proof.
  induction events as [|event rest IH]; [reflexivity|].
  rewrite deliver_all_cons.
  destruct (outcome_of (deliver r event s)); [reflexivity|exact IH].
Qed.

(** Behind the guard no event of any session does anything. *)
Lemma deliver_guarded r event s :
  guarded s = true -> deliver r event s = ([], s, inr tt).
Proof.
  intros Hg. rewrite deliver_run.
  destruct (sinks s !! r) as [k|]; [|reflexivity].
  rewrite sink_run, Hg. reflexivity.
Qed.

Lemma deliver_all_guarded r events s :
  guarded s = true -> deliver_all r events s = ([], s, inr tt).
Proof.
  intros Hg. induction events as [|event rest IH]; [reflexivity|].
  rewrite deliver_all_cons, deliver_guarded by exact Hg.
  cbn [outcome_of trace_of fst snd app]. rewrite IH. reflexivity.
Qed.

(** Events reach quiet subscribers exactly as they reach throwing ones. *)
Lemma deliver_quiet r event s :
  deliver r event (quiet_system s) =
  (trace_of (deliver r event s), quiet_system s, outcome_of (deliver r event s)).
Proof.
  rewrite !deliver_run. cbn [quiet_system sinks].
  destruct (sinks s !! r) as [k|]; [|reflexivity].
  rewrite !sink_run. unfold guarded. cbn [quiet_system recognizer].
  cbn [quiet_subscribers disposedSpeechRecognizer reco].
  destruct (disposedSpeechRecognizer (recognizer s) || not_ (reco (recognizer s)));
    [reflexivity|].
  cbv zeta. rewrite dispatch_quiet. reflexivity.
Qed.

Lemma deliver_all_quiet r events s :
  deliver_all r events (quiet_system s) =
  (trace_of (deliver_all r events s), quiet_system s,
   outcome_of (deliver_all r events s)).
Proof.
  induction events as [|event rest IH]; [reflexivity|].
  rewrite !deliver_all_cons, deliver_quiet.
  cbn [outcome_of trace_of state_of fst snd].
  destruct (outcome_of (deliver r event s)); [reflexivity|].
  rewrite IH. reflexivity.
Qed.

(** Tearing down: the session, if any, is turned off and then disposed,
    and the handle is dropped. *)
Lemma implCloseExistingRecognizer_run this :
  implCloseExistingRecognizer this =
  (match reco this with
   | Some r => [AudioSource_TurnOff r; Dispose r]
   | None => []
   end, set_reco this None, inr tt).
Proof.
  unfold implCloseExistingRecognizer. cbv [mbind M_bind get]. cbn [app].
  destruct this as [d p rz rd c [r|]]; reflexivity.
Qed.

Lemma report_state act cb0 err0 this :
  state_of (report act cb0 err0 this) = this.
Proof.
  unfold report. destruct cb0 as [f|]; [|reflexivity].
  run. cbn. destruct (f tt) as [e|]; [|reflexivity].
  destruct err0 as [g|]; reflexivity.
Qed.

(** After [stopContinuousRecognitionAsync] the guard of every sink is
    closed, whatever the state before and whatever the callbacks do. *)
Lemma stop_guarded cb0 err0 s :
  guarded (state_of (stopContinuousRecognitionAsync cb0 err0 s)) = true.
Proof.
  unfold stopContinuousRecognitionAsync, guarded.
  cbv [mbind M_bind get on_this throwIfDisposed throw mret M_ret].
  destruct (disposedSpeechRecognizer (recognizer s)) eqn:Hd.
  - cbn. rewrite Hd. reflexivity.
  - rewrite implCloseExistingRecognizer_run.
    match goal with |- context [report ?a ?b ?c ?d] =>
      pose proof (report_state a b c d) as Hr;
      destruct (report a b c d) as [[t o] res] end.
    cbn in Hr. subst o. cbn. apply orb_true_r.
Qed.

(** After [close] too; the instance is then disposed. *)
Lemma close_disposed s :
  disposedSpeechRecognizer (recognizer (state_of (close s))) = true.
Proof.
  unfold close, dispose.
  cbv [mbind M_bind get on_this throwIfDisposed throw mret M_ret].
  destruct (disposedSpeechRecognizer (recognizer s)) eqn:Hd.
  - cbn. exact Hd.
  - cbn. rewrite Hd. rewrite implCloseExistingRecognizer_run. reflexivity.
Qed.

Lemma close_guarded s : guarded (state_of (close s)) = true.
Proof. unfold guarded. rewrite close_disposed. reflexivity. Qed.

(** Starting a one-shot recognition on a live instance, run. *)
Lemma recognizeOnceAsync_run cb err s :
  disposedSpeechRecognizer (recognizer s) = false ->
  recognizeOnceAsync cb err s =
  let n := next_session s in
  match getProperty (properties (recognizer s))
          SpeechServiceConnection_RecoLanguage None with
  | Some _ =>
      (teardown_calls (recognizer s) ++ [Setup Interactive n; Start n],
       mkSystem (set_reco (recognizer s) (Some n)) (S n)
         (<[n := OneShotSink cb err]> (sinks s)),
       inr tt)
  | None =>
      (teardown_calls (recognizer s),
       mkSystem (set_reco (recognizer s) None) n (sinks s),
       inl (ArgumentNullOrWhitespace SpeechServiceConnection_RecoLanguage))
  end.
Proof.
  intros Hd. unfold recognizeOnceAsync, teardown_calls.
  cbv [mbind M_bind get on_this throwIfDisposed]. rewrite Hd.
  cbv [mret M_ret]. rewrite implCloseExistingRecognizer_run.
  unfold implRecognizerSetup, implRecognizerStart, assign_reco.
  cbv [mbind M_bind get put emit mret M_ret throw].
  cbn [recognizer next_session sinks properties privProperties set_reco].
  destruct (getProperty _ _ _); cbn; rewrite ?app_nil_r; reflexivity.
Qed.

Lemma startContinuousRecognitionAsync_trace cb0 err0 s :
  disposedSpeechRecognizer (recognizer s) = false ->
  is_Some (getProperty (properties (recognizer s))
             SpeechServiceConnection_RecoLanguage None) ->
  exists t,
    trace_of (startContinuousRecognitionAsync cb0 err0 s) =
    teardown_calls (recognizer s)
    ++ [Setup Conversation (next_session s); Start (next_session s)] ++ t.
Proof.
  intros Hd [lang Hlang]. unfold startContinuousRecognitionAsync, teardown_calls.
  cbv [mbind M_bind get on_this throwIfDisposed]. rewrite Hd.
  cbv [mret M_ret]. rewrite implCloseExistingRecognizer_run.
  unfold implRecognizerSetup, implRecognizerStart, assign_reco.
  cbv [mbind M_bind get put emit mret M_ret throw].
  cbn [recognizer next_session sinks properties privProperties set_reco].
  unfold properties in Hlang. rewrite Hlang. cbn [recognizer next_session sinks app].
  match goal with |- context [report ?a ?b ?c ?d] =>
    destruct (report a b c d) as [[t o] res] end.
  exists t. cbn. destruct (reco (recognizer s)); reflexivity.
Qed.

(** The completion pair is counted call by call. *)
Lemma completions_app t t' : completions (t ++ t') = (completions t + completions t')%nat.
Proof. unfold completions. rewrite List.filter_app, length_app. reflexivity. Qed.

Lemma subscriber_calls_completions this sid status result :
  completions (subscriber_calls this sid status result) = 0%nat.
Proof.
  unfold subscriber_calls.
  destruct (bool_decide _), (canceled this), (recognized this); reflexivity.
Qed.

(** A one-shot sink invokes its callback for every phrase it is called
    with, however many came before: [n] phrases, [n] invocations. *)
Lemma one_shot_completion_per_phrase s r f e sid p n :
  guarded s = false ->
  sinks s !! r = Some (OneShotSink (Some f) e) ->
  (forall result, f result = None) ->
  completions
    (trace_of (deliver_all r (repeat (SpeechSimplePhraseEvent sid p) n) s)) = n.
Proof.
  intros Hg Hk Hf. induction n as [|n IH]; [reflexivity|].
  cbn [repeat]. rewrite deliver_all_cons, deliver_run, Hk, sink_run, Hg.
  cbv zeta. rewrite simple_run. cbn [sink_locals outcome_of trace_of fst snd].
  unfold completion_outcome, completion_calls. cbn [cb err]. rewrite Hf.
  cbn [trace_of fst]. rewrite !completions_app, subscriber_calls_completions.
  cbn [trace_of] in IH. rewrite IH. reflexivity.
Qed.

(* ===================================================================== *)
(** ** The event translator *)
(* ===================================================================== *)

(** C8.  For every SimplePhrase event the result object has its [offset]
    assigned from the payload's [Duration] (the payload's [Offset] is not
    read), its [duration] from the same [Duration], its [text] from
    [DisplayText], its [json] from the serialised payload and its [reason]
    from the translated status; this is the result handed to the
    [recognized] subscriber and to the completion callback. *)
Theorem simple_phrase_result this sid p l :
  let reason_ := implTranslateRecognitionResult (simple_RecognitionStatus p) in
  let result :=
    mkResult (Some reason_) (Some (simple_DisplayText p))
      (Some (simple_Duration p)) (Some (simple_Duration p))
      (Some (JSON_stringify p)) None in
  simplePhraseResult p = result /\
  trace_of (implDispatchMessageHandler this (SpeechSimplePhraseEvent sid p) l) =
    subscriber_calls this sid (simple_RecognitionStatus p) result
    ++ completion_calls true l result.
Proof.
  intros reason_ result. split; [reflexivity|].
  rewrite simple_run. reflexivity.
Qed.

(** C7, as amended.  For every DetailedPhrase event that is not a
    recognized phrase with an empty NBest, the result object takes [offset]
    and [duration] from the payload's own [Offset] and [Duration]; when the
    translated outcome is recognized speech its [text] is the [Display] of
    the first NBest alternative, and for any other outcome [text] stays
    unset; this is the result handed to the [recognized] subscriber and to
    the completion callback.  For a recognized phrase with an empty NBest
    the read of the first alternative throws a type error: no text is
    assigned and nothing is dispatched. *)
Theorem detailed_phrase_result this sid p l :
  let reason_ := implTranslateRecognitionResult (detailed_RecognitionStatus p) in
  let run := implDispatchMessageHandler this (SpeechDetailedPhraseEvent sid p) l in
  let result text_ :=
    mkResult (Some reason_) text_ (Some (detailed_Offset p))
      (Some (detailed_Duration p)) (Some (JSON_stringify p)) None in
  let delivers r :=
    detailedPhraseResult p l = ([], l, inr r) /\
    run = (subscriber_calls this sid (detailed_RecognitionStatus p) r
           ++ completion_calls false l r, l, inr tt) in
  match reason_, detailed_NBest p with
  | RecognizedSpeech, first :: _ => delivers (result (Some (Display first)))
  | RecognizedSpeech, [] =>
      exists msg,
        detailedPhraseResult p l = ([], l, inl (TypeError msg)) /\
        run = ([], l, inl (TypeError msg))
  | _, _ => delivers (result None)
  end.
Proof.
  cbv zeta. rewrite detailed_run, detailedPhraseResult_run. cbv zeta.
  destruct (implTranslateRecognitionResult (detailed_RecognitionStatus p)) eqn:E;
    cbn [bool_decide decide_rel ResultReason_eq_dec]; cbn.
  - split; reflexivity.
  - split; reflexivity.
  - destruct (detailed_NBest p) as [|first rest]; [|split; reflexivity].
    eexists. split; reflexivity.
Qed.

(** C6.  An exception raised inside a [recognizing], [recognized] or
    [canceled] handler is caught and discarded where the handler is called:
    for every event and every subscriber set, the calls made, the outcome
    and the locals left are those of the same subscribers never throwing,
    and so are the calls and the outcome of every sequence of events. *)
Theorem subscriber_exceptions_discarded this event l r events s :
  implDispatchMessageHandler this event l =
    implDispatchMessageHandler (quiet_subscribers this) event l /\
  trace_of (deliver_all r events s) = trace_of (deliver_all r events (quiet_system s)) /\
  outcome_of (deliver_all r events s) = outcome_of (deliver_all r events (quiet_system s)).
Proof.
  rewrite dispatch_quiet, deliver_all_quiet. repeat split.
Qed.

(* ===================================================================== *)
(** ** The session controller *)
(* ===================================================================== *)

(** C9.  If the recognizer has been disposed or holds no session, a sink
    called with any event returns at once: no call is made, the system is
    unchanged and nothing is thrown. *)
Theorem sink_returns_when_disposed_or_idle s k event :
  disposedSpeechRecognizer (recognizer s) = true \/ reco (recognizer s) = None ->
  sink k event s = ([], s, inr tt).
Proof.
  intros Hg. rewrite sink_run.
  replace (guarded s) with true; [reflexivity|].
  unfold guarded. destruct Hg as [-> | ->]; [reflexivity|].
  symmetry. apply orb_true_r.
Qed.

(** The accessors after [close()], as they are.  The getter and the setter
    of the endpoint id and the getters of the language and of the output format
    fail with the disposed classification.  The getter and the setter of
    the authorization token lack the check of the disposed flag: after
    [close()] the getter returns the stored token and the setter stores a
    non-blank token.  On any instance, both setters (endpoint id,
    authorization token) fail on a null or blank value and leave the store
    as it was.  There is no setter for the language or the output format. *)
Theorem accessors_after_close s this0 value blank :
  null_or_blank value = false ->
  null_or_blank blank = true ->
  let this := recognizer (state_of (close s)) in
  get_endpointId this = ([], this, inl ObjectDisposed) /\
  set_endpointId value this = ([], this, inl ObjectDisposed) /\
  get_speechRecognitionLanguage this = ([], this, inl ObjectDisposed) /\
  get_outputFormat this = ([], this, inl ObjectDisposed) /\
  get_authorizationToken this =
    ([], this, inr (getProperty (properties this) SpeechServiceAuthorization_Token None)) /\
  (exists v, value = Some v /\
     set_authorizationToken value this =
       ([], set_privProperties this
              (setProperty (properties this) SpeechServiceAuthorization_Token v),
        inr tt)) /\
  set_endpointId blank this0 =
    ([], this0,
     inl (if disposedSpeechRecognizer this0 then ObjectDisposed
          else ArgumentNullOrWhitespace "value")) /\
  set_authorizationToken blank this0 =
    ([], this0, inl (ArgumentNullOrWhitespace "token")).
Proof.
  intros Hv Hb this.
  assert (Hd : disposedSpeechRecognizer this = true) by apply close_disposed.
  clearbody this.
  unfold get_endpointId, set_endpointId, get_speechRecognitionLanguage,
    get_outputFormat, get_authorizationToken, set_authorizationToken.
  cbv [mbind M_bind get throwIfDisposed throwIfNullOrWhitespace throw mret M_ret put].
  rewrite Hd. repeat split.
  - destruct value as [v|]; [|discriminate]. exists v. split; [reflexivity|].
    cbn in Hv. rewrite Hv. reflexivity.
  - destruct (disposedSpeechRecognizer this0); [reflexivity|].
    destruct blank as [b|]; [|reflexivity]. cbn in Hb. rewrite Hb. reflexivity.
  - destruct blank as [b|]; [|reflexivity]. cbn in Hb. rewrite Hb. reflexivity.
Qed.

End Dispatch.

(* ===================================================================== *)
(** ** Runs against the sample service *)
(* ===================================================================== *)

Import Service.

Lemma sink_returns_when_disposed_or_idle_witness :
  (disposedSpeechRecognizer (recognizer all_subscribed) = true \/
   reco (recognizer all_subscribed) = None) /\
  sink ContinuousSink hypothesis_hel all_subscribed = ([], all_subscribed, inr tt).
Proof.
  split; [right; reflexivity|].
  apply (sink_returns_when_disposed_or_idle all_subscribed ContinuousSink hypothesis_hel).
  right; reflexivity.
Defined.

Lemma accessors_after_close_witness :
  null_or_blank (Some "fresh") = false /\
  null_or_blank (Some "  ") = true /\
  (let this := recognizer (after close all_subscribed) in
   get_endpointId this = ([], this, inl ObjectDisposed)) /\
  set_authorizationToken (Some "  ") (recognizer all_subscribed) =
    ([], recognizer all_subscribed, inl (ArgumentNullOrWhitespace "token")).
Proof.
  assert (Hv : null_or_blank (Some "fresh") = false) by reflexivity.
  assert (Hb : null_or_blank (Some "  ") = true) by reflexivity.
  destruct (accessors_after_close all_subscribed (recognizer all_subscribed)
              (Some "fresh") (Some "  ") Hv Hb)
    as (Hget & _ & _ & _ & _ & _ & _ & Hset).
  exact (conj Hv (conj Hb (conj Hget Hset))).
Defined.

(** A recognized simple phrase with [Offset = 100] and [Duration = 7]: the
    result carries 7 in both [offset] and [duration]. *)
Example hello_offset_is_duration :
  implDispatchMessageHandler (recognizer awaiting) hello (mkLocals None None) =
  ([call_recognized
      (mkEventArgs (Some "s1")
         (Some (mkResult (Some RecognizedSpeech) (Some "hello world")
                  (Some 7) (Some 7) (Some "{}") None)))],
   mkLocals None None, inr tt).
Proof. vm_compute. reflexivity. Qed.

(** A recognized detailed phrase: the text is the display form of the
    first alternative; without any alternative the handler throws before
    anything is dispatched. *)
Example detailed_hello_text :
  trace_of (deliver 0%nat detailed_hello awaiting) =
  let result :=
    mkResult (Some RecognizedSpeech) (Some "Hello.") (Some 100) (Some 7)
      (Some "{}") None in
  [call_recognized (mkEventArgs (Some "s1") (Some result)); call_cb result].
Proof. vm_compute. reflexivity. Qed.

Example detailed_without_alternative_throws :
  deliver 0%nat detailed_without_alternative awaiting =
  ([], awaiting, inl (TypeError "Cannot read property 'Display' of undefined")).
Proof. vm_compute. reflexivity. Qed.

(** Subscribers that always throw: the phrase still reaches the completion
    callback and the next event is still dispatched. *)
Example throwing_subscribers_do_not_stop_dispatch :
  let s := after (recognizeOnceAsync (Some returns) None)
             (fresh (Some (throws "a")) (Some (throws "b")) (Some (throws "c"))) in
  map is_user_call (trace_of (deliver_all 0%nat [hypothesis_hel; hello] s)) =
    [true; true; true] /\
  outcome_of (deliver_all 0%nat [hypothesis_hel; hello] s) = inr tt.
Proof. split; vm_compute; reflexivity. Qed.

(** C1.  The code run on a one-shot recognition whose session emits a
    recognized phrase and then ends with an error: the completion callback
    is invoked for the phrase and again for the end of the session, two
    invocations where at most one is allowed.  The assignments
    [cb = undefined; err = undefined] of the phrase case do clear the
    parameters of that call of [implDispatchMessageHandler], but the sink
    passes its own [cb] and [err] again with the next event. *)
Theorem recognizeOnce_callback_invoked_twice :
  sinks awaiting !! 0%nat = Some (OneShotSink (Some returns) (Some returns)) /\
  state_of (implDispatchMessageHandler (recognizer awaiting) hello
              (mkLocals (Some returns) (Some returns))) = mkLocals None None /\
  completions (trace_of (deliver_all 0%nat [hello; ended_with_error] awaiting)) = 2%nat /\
  completions (trace_of (deliver_all 0%nat [hello; hello] awaiting)) = 2%nat.
Proof. repeat split; vm_compute; reflexivity. Qed.

(** C4.  The code run on a one-shot recognition whose session ends with an
    error and then still emits a phrase: the canceled subscriber and the
    completion callback receive the cancellation with the details
    ["ConnectError: timed out"], the parameters of that call still hold the
    callback afterwards, and the phrase invokes the callback again. *)
Theorem session_ended_callback_not_cleared :
  let details := "ConnectError: timed out" in
  let canceled_ := mkCanceledEventArgs (Some "s1") (Some Error) (Some details) in
  let result := mkResult (Some Canceled) None None None None (Some details) in
  implDispatchMessageHandler (recognizer awaiting) ended_with_error
    (mkLocals (Some returns) (Some returns)) =
    ([call_canceled canceled_; call_cb result],
     mkLocals (Some returns) (Some returns), inr tt) /\
  completions (trace_of (deliver_all 0%nat [ended_with_error; hello] awaiting)) = 2%nat.
Proof. split; vm_compute; reflexivity. Qed.

(** C2 fails as stated: a continuous recognition is started while session 0
    is held; an event that still reaches the sink of session 0 is dispatched
    to the [recognizing] subscriber.  Likewise the completion callback of a
    superseded one-shot recognition is invoked. *)
Lemma stale_sink_dispatches_after_restart :
  reco (recognizer listening) = Some 0%nat /\
  reco (recognizer (after (startContinuousRecognitionAsync None None) listening))
    = Some 1%nat /\
  ~ silent (trace_of (deliver 0%nat hypothesis_hel
                        (after (startContinuousRecognitionAsync None None) listening))) /\
  ~ silent (trace_of (deliver 0%nat hello
                        (after (recognizeOnceAsync None None) awaiting))).
Proof.
  repeat split; try (vm_compute; reflexivity).
  - intros Hs. vm_compute in Hs. inversion Hs as [|a t Ha Ht]. discriminate Ha.
  - intros Hs. vm_compute in Hs. inversion Hs as [|a t Ha Ht]. discriminate Ha.
Qed.

(** C7 fails as stated: a detailed phrase whose status translates to
    recognized speech and whose NBest is empty.  The outcome is recognized,
    yet no result comes out of the construction (the read of the first
    alternative throws) and nothing reaches the subscriber or the
    completion callback. *)
Lemma recognized_phrase_without_alternative_has_no_text :
  implTranslateRecognitionResult
    (detailed_RecognitionStatus (mkDetailed St_Success [] 100 7)) = RecognizedSpeech /\
  (forall result,
     outcome_of (detailedPhraseResult (mkDetailed St_Success [] 100 7)
                   (mkLocals (Some returns) (Some returns))) <> inr result) /\
  trace_of (implDispatchMessageHandler (recognizer awaiting)
              detailed_without_alternative
              (mkLocals (Some returns) (Some returns))) = [].
Proof.
  split; [reflexivity|]. split; [|vm_compute; reflexivity].
  intros result Hr. vm_compute in Hr. discriminate Hr.
Qed.

(** C3 fails as stated: the event-args handed to [recognizing] for a
    Hypothesis event carry a result without a reason. *)
Lemma hypothesis_dispatched_without_reason :
  ~ Forall carries_reason
      (trace_of (implDispatchMessageHandler (recognizer all_subscribed)
                   hypothesis_hel (mkLocals None None))).
Proof.
  intros Hf. vm_compute in Hf. inversion Hf as [|a t Ha Ht].
  destruct Ha as (r & Hr & [x Hx]). inversion Hr; subst r. discriminate Hx.
Qed.

(** C5.  The code run after [close()]: the getter of the authorization
    token returns the stored token and the setter stores a new one, where
    every other accessor and every session method fails with the disposed
    classification; [get authorizationToken] and [set authorizationToken]
    are the only public members without [Contracts.throwIfDisposed]. *)
Lemma authorizationToken_usable_after_close :
  let this := recognizer (after close all_subscribed) in
  disposedSpeechRecognizer this = true /\
  outcome_of (get_authorizationToken this) = inr (Some "token") /\
  outcome_of (get_authorizationToken this) <> inl ObjectDisposed /\
  outcome_of (set_authorizationToken (Some "fresh") this) = inr tt /\
  getProperty (properties (state_of (set_authorizationToken (Some "fresh") this)))
    SpeechServiceAuthorization_Token None = Some "fresh".
Proof.
  repeat split; try (vm_compute; reflexivity).
  vm_compute. discriminate.
Qed.

End SpeechRecognizerFacts.


(* ===================================================================== *)
(** ** Construction and the property accessors *)
(* ===================================================================== *)

Module AccessorFacts.
Import SpeechRecognizer Expected Lifecycle.

Ltac run_accessor :=
  unfold get_endpointId, set_endpointId, get_speechRecognitionLanguage,
    get_outputFormat, get_authorizationToken, set_authorizationToken;
  cbv [mbind M_bind get throwIfDisposed throwIfNullOrWhitespace throw mret M_ret
       put trace_of state_of outcome_of].

Lemma set_privProperties_same this :
  set_privProperties this (privProperties this) = this.
Proof. destruct this; reflexivity. Qed.

(** X1.  [new SpeechRecognizer(speechConfig)] fails exactly when the
    configuration is null or its recognition language is missing or blank.
    When it succeeds the instance holds the properties of the configuration,
    is not disposed, holds no session and has no subscriber, and its
    language getter returns the configured, non-blank language. *)
Theorem constructed_recognizer_is_ready {St} (speechConfig : option (gmap string string))
    (s : St) :
  trace_of (new_SpeechRecognizer speechConfig s) = [] /\
  match outcome_of (new_SpeechRecognizer speechConfig s) with
  | inr this =>
      speechConfig = Some (properties this) /\
      disposedSpeechRecognizer this = false /\
      reco this = None /\
      recognizing this = None /\ recognized this = None /\ canceled this = None /\
      exists lang,
        is_blank lang = false /\
        get_speechRecognitionLanguage this = ([], this, inr (Some lang))
  | inl _ =>
      speechConfig = None \/
      exists p, speechConfig = Some p /\
        null_or_blank (getProperty p SpeechServiceConnection_RecoLanguage None) = true
  end.
Proof.
  unfold new_SpeechRecognizer, throwIfNull.
  destruct speechConfig as [p|]; [|split; [reflexivity|left; reflexivity]].
  cbv [mbind M_bind mret M_ret throwIfNullOrWhitespace throw].
  destruct (getProperty p SpeechServiceConnection_RecoLanguage None) as [lang|] eqn:E;
    [|split; [reflexivity|right; exists p; rewrite E; split; reflexivity]].
  destruct (is_blank lang) eqn:B.
  - split; [reflexivity|]. right. exists p. rewrite E. split; [reflexivity|exact B].
  - split; [reflexivity|]. cbn. repeat (split; [reflexivity|]).
    exists lang. split; [exact B|].
    run_accessor. cbn. unfold properties. cbn. rewrite E. reflexivity.
Qed.

(** X2.  On an instance that is not disposed, setting the endpoint id to a
    non-blank string succeeds and the getter then returns that string. *)
Theorem endpointId_set_then_get this v :
  disposedSpeechRecognizer this = false ->
  is_blank v = false ->
  let this' := state_of (set_endpointId (Some v) this) in
  outcome_of (set_endpointId (Some v) this) = inr tt /\
  get_endpointId this' = ([], this', inr (Some v)).
Proof.
  intros Hd Hb. run_accessor. rewrite Hd, Hb. cbn.
  split; [reflexivity|]. rewrite Hd.
  unfold getProperty, properties, setProperty. cbn.
  rewrite lookup_insert_eq. reflexivity.
Qed.

(** X3.  Setting the authorization token to a non-blank string succeeds and
    the getter then returns that string, on any instance, disposed or not. *)
Theorem authorizationToken_set_then_get this v :
  is_blank v = false ->
  let this' := state_of (set_authorizationToken (Some v) this) in
  outcome_of (set_authorizationToken (Some v) this) = inr tt /\
  get_authorizationToken this' = ([], this', inr (Some v)).
Proof.
  intros Hb. run_accessor. rewrite Hb. cbn.
  split; [reflexivity|].
  unfold getProperty, properties, setProperty. cbn.
  rewrite lookup_insert_eq. reflexivity.
Qed.

(** Each setter writes its own property only. *)
Lemma setters_write_only this value :
  writes_only SpeechServiceConnection_EndpointId this
    (state_of (set_endpointId value this)) /\
  writes_only SpeechServiceAuthorization_Token this
    (state_of (set_authorizationToken value this)).
Proof.
  assert (Hsame : forall key, writes_only key this this).
  { intros key. exists (privProperties this).
    split; [symmetry; apply set_privProperties_same|reflexivity]. }
  assert (Hset : forall key v,
            writes_only key this
              (set_privProperties this (setProperty (properties this) key v))).
  { intros key v. eexists. split; [reflexivity|].
    intros k Hk. unfold setProperty. apply lookup_insert_ne. congruence. }
  run_accessor.
  destruct (disposedSpeechRecognizer this), value as [v|];
    try destruct (is_blank v); cbn; split; try apply Hsame; apply Hset.
Qed.

Lemma on_this_state {A} (m : M SpeechRecognizer A) s :
  recognizer (state_of (on_this m s)) = state_of (m (recognizer s)).
Proof. unfold on_this. destruct (m (recognizer s)) as [[t o] r]. reflexivity. Qed.

(** X4.  A setter makes no call and changes nothing but its own property:
    the disposed flag, the session held and the subscribers stay, and so
    does every other property of the store; a setter that throws leaves the
    instance as it was. *)
Theorem setters_write_only_their_property this value :
  let e := set_endpointId value this in
  let a := set_authorizationToken value this in
  trace_of e = [] /\
  writes_only SpeechServiceConnection_EndpointId this (state_of e) /\
  (forall x, outcome_of e = inl x -> state_of e = this) /\
  trace_of a = [] /\
  writes_only SpeechServiceAuthorization_Token this (state_of a) /\
  (forall x, outcome_of a = inl x -> state_of a = this).
Proof.
  assert (Hsame : forall key, writes_only key this this).
  { intros key. exists (privProperties this).
    split; [symmetry; apply set_privProperties_same|reflexivity]. }
  assert (Hset : forall key v,
            writes_only key this
              (set_privProperties this (setProperty (properties this) key v))).
  { intros key v. eexists. split; [reflexivity|].
    intros k Hk. unfold setProperty. apply lookup_insert_ne. congruence. }
  cbv zeta. run_accessor.
  destruct (disposedSpeechRecognizer this), value as [v|];
    try destruct (is_blank v); cbn;
    repeat split; try apply Hsame; try apply Hset; try reflexivity;
    intros x Hx; discriminate Hx.
Qed.

(** X5.  The output format getter of a live instance answers [Simple] when
    the format property is missing or holds the name of [Simple], and
    [Detailed] for every other stored string. *)
Theorem outputFormat_is_Detailed_unless_Simple this :
  disposedSpeechRecognizer this = false ->
  get_outputFormat this =
  ([], this,
   inr match properties this !! OutputFormatPropertyName with
       | None => Simple
       | Some v => if String.eqb v (OutputFormat_name Simple) then Simple else Detailed
       end).
Proof.
  intros Hd. run_accessor. rewrite Hd. cbn. unfold getProperty.
  destruct (properties this !! OutputFormatPropertyName) as [v|]; [|reflexivity].
  cbn [OutputFormat_name].
  destruct (String.eqb_spec v "Simple") as [->|Hne].
  - reflexivity.
  - rewrite bool_decide_eq_false_2; [reflexivity|]. intros [= Hv]. contradiction.
Qed.

(** X6.  Getters on a live instance whose store lacks the key: the endpoint
    id is the all-zero GUID, the authorization token and the language are
    [undefined].  A getter never changes the instance. *)
Theorem getters_of_missing_properties this :
  disposedSpeechRecognizer this = false ->
  (properties this !! SpeechServiceConnection_EndpointId = None ->
   get_endpointId this = ([], this, inr (Some "00000000-0000-0000-0000-000000000000"))) /\
  (properties this !! SpeechServiceAuthorization_Token = None ->
   get_authorizationToken this = ([], this, inr None)) /\
  (properties this !! SpeechServiceConnection_RecoLanguage = None ->
   get_speechRecognitionLanguage this = ([], this, inr None)) /\
  state_of (get_endpointId this) = this /\
  state_of (get_authorizationToken this) = this /\
  state_of (get_speechRecognitionLanguage this) = this /\
  state_of (get_outputFormat this) = this.
Proof.
  intros Hd. run_accessor. rewrite Hd. cbn. unfold getProperty.
  repeat split; try (intros ->; reflexivity).
  destruct (bool_decide _); reflexivity.
Qed.

End AccessorFacts.


(* ===================================================================== *)
(** ** More on the event translator *)
(* ===================================================================== *)

Module TranslatorFacts.
Import SpeechRecognizer Expected Lifecycle SpeechRecognizerFacts.

Section Dispatch.
Context `{Exports}.

(** X7.  A RecognitionEnded event with status [Success] causes no call at
    all.  With any other status the [canceled] subscriber, if set, receives
    the reason [Error], the session id and the details "status name: error
    text", and the completion callback, if given, receives a result with
    reason [Canceled] and the same details (an exception of the callback
    going to [err]); the parameters [cb] and [err] are left as they were. *)
Theorem session_end_dispatch this Status sid error l :
  let run := implDispatchMessageHandler this (RecognitionEndedEvent Status sid error) l in
  let details := RecognitionCompletionStatus_name Status +:+ ": " +:+ error in
  let result := mkResult (Some Canceled) None None None None (Some details) in
  (Status = Success -> run = ([], l, inr tt)) /\
  (Status <> Success ->
   trace_of run =
     match canceled this with
     | Some _ =>
         [call_canceled (mkCanceledEventArgs (Some sid) (Some Error) (Some details))]
     | None => []
     end ++ completion_calls true l result /\
   state_of run = l /\
   outcome_of run = completion_outcome true l result).
Proof.
  cbv zeta. rewrite ended_run. split.
  - intros ->. rewrite bool_decide_eq_false_2; [reflexivity|]. intros Hne. apply Hne. reflexivity.
  - intros Hne. rewrite bool_decide_eq_true_2 by exact Hne. repeat split.
Qed.

Lemma completion_calls_user fw l result :
  Forall (fun a => is_user_call a = true) (completion_calls fw l result).
Proof.
  destruct l as [[f|] e]; unfold completion_calls; cbn [cb err]; [|constructor].
  constructor; [reflexivity|].
  destruct (f result), e, fw; repeat constructor.
Qed.

Lemma completion_calls_counts fw l result :
  List.filter is_subscriber_call (completion_calls fw l result) = [] /\
  (length (List.filter is_call_cb (completion_calls fw l result)) <= 1)%nat /\
  (length (List.filter is_call_err (completion_calls fw l result)) <= 1)%nat /\
  (fw = false -> List.filter is_call_err (completion_calls fw l result) = []).
Proof.
  destruct l as [[f|] e]; unfold completion_calls; cbn [cb err];
    [|cbn; repeat split; lia].
  destruct (f result), e, fw; cbn; repeat split; try lia; discriminate.
Qed.

Lemma subscriber_calls_counts this sid status result :
  Forall (fun a => is_user_call a = true) (subscriber_calls this sid status result) /\
  (length (List.filter is_subscriber_call (subscriber_calls this sid status result)) <= 1)%nat /\
  List.filter is_call_cb (subscriber_calls this sid status result) = [] /\
  List.filter is_call_err (subscriber_calls this sid status result) = [].
Proof.
  unfold subscriber_calls.
  destruct (bool_decide _), (canceled this), (recognized this); cbn;
    repeat split; repeat constructor.
Qed.

(** The calls of one event, counted by kind. *)
Lemma dispatch_call_counts this event l :
  let t := trace_of (implDispatchMessageHandler this event l) in
  Forall (fun a => is_user_call a = true) t /\
  (length (List.filter is_subscriber_call t) <= 1)%nat /\
  (length (List.filter is_call_cb t) <= 1)%nat /\
  (length (List.filter is_call_err t) <= 1)%nat.
Proof.
  assert (Happ : forall subs fw result,
    Forall (fun a => is_user_call a = true) subs ->
    (length (List.filter is_subscriber_call subs) <= 1)%nat ->
    List.filter is_call_cb subs = [] ->
    List.filter is_call_err subs = [] ->
    let t := subs ++ completion_calls fw l result in
    Forall (fun a => is_user_call a = true) t /\
    (length (List.filter is_subscriber_call t) <= 1)%nat /\
    (length (List.filter is_call_cb t) <= 1)%nat /\
    (length (List.filter is_call_err t) <= 1)%nat).
  { intros subs fw result Hu Hs Hc He. cbv zeta.
    destruct (completion_calls_counts fw l result) as (Cs & Cc & Ce & _).
    rewrite !List.filter_app, !length_app, Cs, Hc, He. cbn [length].
    repeat split; try lia.
    apply Forall_app. split; [exact Hu|apply completion_calls_user]. }
  assert (Hnil : Forall (fun a => is_user_call a = true) [] /\
                 (length (List.filter is_subscriber_call []) <= 1)%nat /\
                 (length (List.filter is_call_cb []) <= 1)%nat /\
                 (length (List.filter is_call_err []) <= 1)%nat).
  { cbn. repeat split; try lia. constructor. }
  cbv zeta.
  destruct event as [Status sid error|sid p|sid p|sid p|name].
  - rewrite ended_run. destruct (bool_decide _); [|exact Hnil].
    cbn [trace_of fst]. apply Happ; destruct (canceled this); cbn;
      repeat constructor.
  - rewrite simple_run. cbn [trace_of fst].
    destruct (subscriber_calls_counts this sid (simple_RecognitionStatus p)
                (simplePhraseResult p)) as (? & ? & ? & ?).
    apply Happ; assumption.
  - rewrite detailed_run.
    destruct (outcome_of (detailedPhraseResult p l)) as [x|result]; [exact Hnil|].
    cbn [trace_of fst].
    destruct (subscriber_calls_counts this sid (detailed_RecognitionStatus p) result)
      as (? & ? & ? & ?).
    apply Happ; assumption.
  - rewrite hypothesis_run. cbn [trace_of fst].
    destruct (recognizing this); cbn; repeat split; try lia; repeat constructor.
  - exact Hnil.
Qed.

(** X8.  Whatever the event, the subscribers and the callbacks, the handler
    only calls user functions (never the engine), and it calls at most one
    subscriber, the completion callback at most once and [err] at most
    once. *)
Theorem one_event_few_calls this event l :
  let t := trace_of (implDispatchMessageHandler this event l) in
  Forall (fun a => is_user_call a = true) t /\
  (length (List.filter is_subscriber_call t) <= 1)%nat /\
  (length (List.filter is_call_cb t) <= 1)%nat /\
  (length (List.filter is_call_err t) <= 1)%nat.
Proof. exact (dispatch_call_counts this event l). Qed.

(** X9.  An exception leaves the handler in two cases only: a detailed
    phrase translated to recognized speech without any NBest alternative,
    or [err] itself throwing after the completion callback threw.  With no
    completion callback (a continuous recognition) only the first case is
    left. *)
Theorem dispatch_throws_only_from_err_or_missing_alternative this event l e :
  outcome_of (implDispatchMessageHandler this event l) = inl e ->
  (exists sid p,
     event = SpeechDetailedPhraseEvent sid p /\
     implTranslateRecognitionResult (detailed_RecognitionStatus p) = RecognizedSpeech /\
     detailed_NBest p = [] /\
     trace_of (implDispatchMessageHandler this event l) = []) \/
  (exists f g result x,
     cb l = Some f /\ err l = Some g /\ f result = Some x /\ g x = Some e).
Proof.
  assert (Hc : forall result,
            completion_outcome true l result = inl e ->
            exists f g result x,
              cb l = Some f /\ err l = Some g /\ f result = Some x /\ g x = Some e).
  { intros result. unfold completion_outcome.
    destruct (cb l) as [f|] eqn:Ef; [|discriminate].
    destruct (f result) as [x|] eqn:Ex; [|discriminate].
    destruct (err l) as [g|] eqn:Eg; [|discriminate].
    destruct (g x) as [e'|] eqn:Ee; [|discriminate].
    intros [= <-]. exists f, g, result, x. auto. }
  destruct event as [Status sid error|sid p|sid p|sid p|name].
  - rewrite ended_run. destruct (bool_decide _); [|discriminate].
    cbn [outcome_of snd]. intros Ho. right. eapply Hc, Ho.
  - rewrite simple_run. cbn [outcome_of snd]. intros Ho. right. eapply Hc, Ho.
  - rewrite detailed_run, detailedPhraseResult_run. cbv zeta.
    destruct (bool_decide _) eqn:Er; [|discriminate].
    destruct (detailed_NBest p) as [|first rest] eqn:En; [|discriminate].
    intros _. left. exists sid, p. apply bool_decide_eq_true_1 in Er.
    repeat split; assumption.
  - rewrite hypothesis_run. discriminate.
  - discriminate.
Qed.

(** X10.  A DetailedPhrase event never reaches [err]: an exception of the
    completion callback is discarded there.  With at least one NBest
    alternative the handler returns normally, whatever the subscribers and
    the callbacks do; the parameters [cb] and [err] are left as they
    were. *)
Theorem detailed_phrase_never_calls_err this sid p l :
  let run := implDispatchMessageHandler this (SpeechDetailedPhraseEvent sid p) l in
  List.filter is_call_err (trace_of run) = [] /\
  state_of run = l /\
  (detailed_NBest p <> [] -> outcome_of run = inr tt).
Proof.
  cbv zeta. rewrite detailed_run, detailedPhraseResult_run. cbv zeta.
  assert (Hok : forall result,
    let run := (subscriber_calls this sid (detailed_RecognitionStatus p) result
                ++ completion_calls false l result, l, inr tt)
               : list Action * Locals * (JSError + unit) in
    List.filter is_call_err (trace_of run) = [] /\ state_of run = l /\
    (detailed_NBest p <> [] -> outcome_of run = inr tt)).
  { intros result. cbn [trace_of state_of outcome_of fst snd].
    destruct (subscriber_calls_counts this sid (detailed_RecognitionStatus p) result)
      as (_ & _ & _ & He).
    destruct (completion_calls_counts false l result) as (_ & _ & _ & Hf).
    rewrite List.filter_app, He, Hf by reflexivity. repeat split. }
  destruct (bool_decide _); [|apply Hok].
  destruct (detailed_NBest p) as [|first rest]; [|apply Hok].
  cbn. repeat split. intros Hne. contradiction.
Qed.

(** X11.  A phrase whose status translates to [Canceled] goes to the
    [canceled] subscriber, never to [recognized]; the event-args carry the
    session id and the translated cancellation reason and no error details,
    and the result handed to the completion callback has reason [Canceled]
    and no error details either. *)
Theorem canceled_phrase_has_no_error_details this sid p l :
  implTranslateRecognitionResult (simple_RecognitionStatus p) = Canceled ->
  let result := simplePhraseResult p in
  trace_of (implDispatchMessageHandler this (SpeechSimplePhraseEvent sid p) l) =
    match canceled this with
    | Some _ =>
        [call_canceled
           (mkCanceledEventArgs (Some sid)
              (Some (implTranslateCancelResult (simple_RecognitionStatus p))) None)]
    | None => []
    end ++ completion_calls true l result /\
  reason result = Some Canceled /\
  errorDetails result = None.
Proof.
  intros Hc. cbv zeta. rewrite simple_run. cbn [trace_of fst].
  unfold subscriber_calls. rewrite Hc. cbn [bool_decide decide_rel].
  rewrite bool_decide_eq_true_2 by reflexivity.
  unfold simplePhraseResult. rewrite Hc. repeat split.
Qed.

(** C3, as amended.  For every event, whatever is handed to a subscriber
    is as follows: the event-args of [recognized] carry a result whose
    reason is the translated status of the phrase; the event-args of
    [canceled] carry a cancellation reason ([Error] for the end of a
    session, the translated cancellation reason for a phrase); the
    event-args of [recognizing], called for a Hypothesis event only, carry a
    result with the json, offset, duration and text of the hypothesis
    assigned and the reason left unset. *)
Theorem dispatched_results_by_event this event l :
  Forall (dispatched_for event) (trace_of (implDispatchMessageHandler this event l)).
Proof.
  assert (Hc : forall fw result,
             Forall (dispatched_for event) (completion_calls fw l result)).
  { intros fw result. unfold completion_calls.
    destruct (cb l) as [f|]; [|constructor].
    constructor; [destruct event; exact I|].
    destruct (f result), (err l), fw; repeat constructor; destruct event; exact I. }
  destruct event as [Status sid error|sid p|sid p|sid p|name].
  - rewrite ended_run. destruct (bool_decide _); [|constructor].
    cbn [trace_of fst]. apply Forall_app. split; [|apply Hc].
    destruct (canceled this); repeat constructor.
  - rewrite simple_run. cbn [trace_of fst]. apply Forall_app. split; [|apply Hc].
    unfold subscriber_calls. destruct (bool_decide _).
    + destruct (canceled this); repeat constructor.
    + destruct (recognized this); repeat constructor. cbn. eauto.
  - rewrite detailed_run, detailedPhraseResult_run. cbv zeta.
    assert (Hs : forall result,
               reason result
               = Some (implTranslateRecognitionResult (detailed_RecognitionStatus p)) ->
               Forall (dispatched_for (SpeechDetailedPhraseEvent sid p))
                 (subscriber_calls this sid (detailed_RecognitionStatus p) result)).
    { intros result Hr. unfold subscriber_calls. destruct (bool_decide _).
      - destruct (canceled this); repeat constructor.
      - destruct (recognized this); repeat constructor. cbn. eauto. }
    destruct (bool_decide _).
    + destruct (detailed_NBest p); cbn [outcome_of snd trace_of fst]; [constructor|].
      apply Forall_app. split; [apply Hs; reflexivity|apply Hc].
    + cbn [outcome_of snd trace_of fst].
      apply Forall_app. split; [apply Hs; reflexivity|apply Hc].
  - rewrite hypothesis_run. cbn [trace_of fst].
    destruct (recognizing this); repeat constructor.
  - constructor.
Qed.

End Dispatch.
End TranslatorFacts.


(* ===================================================================== *)
(** ** More on the session controller *)
(* ===================================================================== *)

Module SessionFacts.
Import SpeechRecognizer Expected Lifecycle SpeechRecognizerFacts TranslatorFacts.
Import AccessorFacts.

Lemma report_run act cb0 err0 this :
  report act cb0 err0 this =
  (report_calls act cb0 err0, this, report_outcome cb0 err0).
Proof.
  unfold report, report_calls, report_outcome.
  destruct cb0 as [f|]; [|reflexivity].
  run. destruct (f tt) as [e|]; [|reflexivity].
  destruct err0 as [g|]; [|reflexivity].
  destruct (g e); reflexivity.
Qed.

Section Sessions.
Context `{Exports}.

(** The four session methods on a disposed instance. *)
Lemma disposed_methods_run s cb err cb0 err0 :
  disposedSpeechRecognizer (recognizer s) = true ->
  recognizeOnceAsync cb err s = ([], s, inl ObjectDisposed) /\
  startContinuousRecognitionAsync cb0 err0 s = ([], s, inl ObjectDisposed) /\
  stopContinuousRecognitionAsync cb0 err0 s = ([], s, inl ObjectDisposed) /\
  close s = ([], s, inl ObjectDisposed).
Proof.
  intros Hd.
  unfold recognizeOnceAsync, startContinuousRecognitionAsync,
    stopContinuousRecognitionAsync, close.
  cbv [mbind M_bind get throwIfDisposed throw]. rewrite Hd. repeat split.
Qed.

(** [startContinuousRecognitionAsync] on a live instance, run. *)
Lemma startContinuousRecognitionAsync_run cb0 err0 s :
  disposedSpeechRecognizer (recognizer s) = false ->
  startContinuousRecognitionAsync cb0 err0 s =
  let n := next_session s in
  match getProperty (properties (recognizer s))
          SpeechServiceConnection_RecoLanguage None with
  | Some _ =>
      (teardown_calls (recognizer s) ++ [Setup Conversation n; Start n]
       ++ report_calls call_started cb0 err0,
       mkSystem (set_reco (recognizer s) (Some n)) (S n)
         (<[n := ContinuousSink]> (sinks s)),
       report_outcome cb0 err0)
  | None =>
      (teardown_calls (recognizer s),
       mkSystem (set_reco (recognizer s) None) n (sinks s),
       inl (ArgumentNullOrWhitespace SpeechServiceConnection_RecoLanguage))
  end.
Proof.
  intros Hd. unfold startContinuousRecognitionAsync, teardown_calls.
  cbv [mbind M_bind get on_this throwIfDisposed]. rewrite Hd.
  cbv [mret M_ret]. rewrite implCloseExistingRecognizer_run.
  unfold implRecognizerSetup, implRecognizerStart, assign_reco.
  cbv [mbind M_bind get put emit mret M_ret throw].
  cbn [recognizer next_session sinks set_reco].
  destruct (getProperty _ _ _);
    [|cbn; rewrite ?app_nil_r; reflexivity].
  cbn [recognizer next_session sinks app]. rewrite report_run.
  cbn. destruct (reco (recognizer s)); reflexivity.
Qed.

(** [stopContinuousRecognitionAsync] on a live instance, run. *)
Lemma stopContinuousRecognitionAsync_run cb0 err0 s :
  disposedSpeechRecognizer (recognizer s) = false ->
  stopContinuousRecognitionAsync cb0 err0 s =
  (teardown_calls (recognizer s) ++ report_calls call_stopped cb0 err0,
   mkSystem (set_reco (recognizer s) None) (next_session s) (sinks s),
   report_outcome cb0 err0).
Proof.
  intros Hd. unfold stopContinuousRecognitionAsync, teardown_calls.
  cbv [mbind M_bind get on_this throwIfDisposed]. rewrite Hd.
  cbv [mret M_ret]. rewrite implCloseExistingRecognizer_run.
  cbn [recognizer next_session sinks app]. rewrite report_run.
  cbn. rewrite ?app_nil_r. reflexivity.
Qed.

(** [close] on a live instance, run. *)
Lemma close_run s :
  disposedSpeechRecognizer (recognizer s) = false ->
  close s =
  (teardown_calls (recognizer s) ++ [super_dispose true],
   mkSystem (set_disposedSpeechRecognizer (set_reco (recognizer s) None) true)
     (next_session s) (sinks s),
   inr tt).
Proof.
  intros Hd. unfold close, dispose, teardown_calls, super_dispose_.
  cbv [mbind M_bind get on_this throwIfDisposed]. rewrite Hd.
  cbv [mret M_ret]. rewrite Hd. rewrite implCloseExistingRecognizer_run.
  cbv [put emit]. cbn. rewrite ?app_nil_r. reflexivity.
Qed.

(** Calls of user functions are neither set-ups nor disposals. *)
Lemma sessions_live_user_calls live t :
  Forall (fun a => is_user_call a = true) t -> sessions_live live t = live.
Proof.
  unfold sessions_live. induction 1 as [|a t Ha _ IH]; [reflexivity|].
  cbn [fold_left]. destruct a; try discriminate Ha; exact IH.
Qed.

Lemma teardown_ordered_user_calls t :
  Forall (fun a => is_user_call a = true) t -> teardown_ordered t = true.
Proof.
  induction 1 as [|a t Ha _ IH]; [reflexivity|].
  destruct a; try discriminate Ha; exact IH.
Qed.

Lemma report_calls_user act cb0 err0 :
  is_user_call act = true ->
  Forall (fun a => is_user_call a = true) (report_calls act cb0 err0).
Proof.
  intros Ha. unfold report_calls. destruct cb0 as [f|]; [|constructor].
  constructor; [exact Ha|]. destruct (f tt), err0; repeat constructor.
Qed.

Lemma sessions_live_app live t t' :
  sessions_live live (t ++ t') = sessions_live (sessions_live live t) t'.
Proof. apply fold_left_app. Qed.

(** Tearing down empties the set of live sessions. *)
Lemma sessions_live_teardown s :
  sessions_live (held s) (teardown_calls (recognizer s)) = [].
Proof.
  unfold held, teardown_calls. destruct (reco (recognizer s)) as [r|]; [|reflexivity].
  cbn. rewrite Nat.eqb_refl. reflexivity.
Qed.

(** A well-ordered trace stays so when it is continued. *)
Lemma teardown_ordered_app_both t :
  (teardown_ordered t = true ->
   forall t', teardown_ordered (t ++ t') = teardown_ordered t') /\
  (forall a, teardown_ordered (a :: t) = true ->
   forall t', teardown_ordered ((a :: t) ++ t') = teardown_ordered t').
Proof.
  induction t as [|b t [IH1 IH2]].
  - split; [reflexivity|]. intros a Ha t'. destruct a; try discriminate Ha; reflexivity.
  - split; [exact (IH2 b)|]. intros a Ha t'.
    destruct a; try discriminate Ha; try exact (IH2 b Ha t').
    destruct b; try discriminate Ha. cbn in Ha |- *.
    apply andb_true_iff in Ha as [-> Ht]. rewrite (IH1 Ht). reflexivity.
Qed.

Lemma teardown_ordered_app t t' :
  teardown_ordered t = true -> teardown_ordered (t ++ t') = teardown_ordered t'.
Proof. intros Ht. apply (proj1 (teardown_ordered_app_both t) Ht). Qed.

Lemma teardown_calls_ordered this : teardown_ordered (teardown_calls this) = true.
Proof.
  unfold teardown_calls. destruct (reco this) as [r|]; [|reflexivity].
  cbn. rewrite Nat.eqb_refl. reflexivity.
Qed.

(** The setters, run inside the system: no call, and the session held is
    not touched. *)
Lemma setters_keep_session value s :
  trace_of (on_this (set_endpointId value) s) = [] /\
  held (state_of (on_this (set_endpointId value) s)) = held s /\
  trace_of (on_this (set_authorizationToken value) s) = [] /\
  held (state_of (on_this (set_authorizationToken value) s)) = held s.
Proof.
  unfold on_this, set_endpointId, set_authorizationToken, held.
  cbv [mbind M_bind get throwIfDisposed throwIfNullOrWhitespace throw mret M_ret put
       trace_of state_of].
  destruct (disposedSpeechRecognizer (recognizer s)), value as [v|];
    try destruct (is_blank v); cbn; repeat split.
Qed.

(** An event calls user functions only and leaves the system as it was. *)
Lemma deliver_user_calls r event s :
  Forall (fun a => is_user_call a = true) (trace_of (deliver r event s)).
Proof.
  rewrite deliver_run. destruct (sinks s !! r) as [k|]; [|constructor].
  rewrite sink_run. destruct (guarded s); [constructor|].
  cbv zeta. cbn [trace_of fst]. apply dispatch_call_counts.
Qed.

(** What one operation does to the live sessions and to the order of the
    calls into the engine. *)
Lemma perform_sessions op s :
  sessions_live (held s) (trace_of (perform op s)) = held (state_of (perform op s)) /\
  teardown_ordered (trace_of (perform op s)) = true.
Proof.
  assert (Hstart : forall mode n tail,
    Forall (fun a => is_user_call a = true) tail ->
    sessions_live (held s) (teardown_calls (recognizer s) ++ [Setup mode n; Start n] ++ tail)
      = [n] /\
    teardown_ordered (teardown_calls (recognizer s) ++ [Setup mode n; Start n] ++ tail)
      = true).
  { intros mode n tail Ht. split.
    - rewrite sessions_live_app, sessions_live_teardown. cbn.
      apply (sessions_live_user_calls [n] tail Ht).
    - rewrite teardown_ordered_app by apply teardown_calls_ordered. cbn.
      apply teardown_ordered_user_calls, Ht. }
  destruct op as [cb err|cb0 err0|cb0 err0| |value|value|r event]; cbn [perform].
  - destruct (disposedSpeechRecognizer (recognizer s)) eqn:Hd.
    + destruct (disposed_methods_run s cb err None None Hd) as (-> & _). split; reflexivity.
    + rewrite recognizeOnceAsync_run by exact Hd. cbv zeta.
      destruct (getProperty _ _ _).
      * cbn [trace_of state_of fst snd]. apply (Hstart Interactive _ []). constructor.
      * cbn [trace_of state_of fst snd]. split;
          [apply sessions_live_teardown|apply teardown_calls_ordered].
  - destruct (disposedSpeechRecognizer (recognizer s)) eqn:Hd.
    + destruct (disposed_methods_run s None None cb0 err0 Hd) as (_ & -> & _).
      split; reflexivity.
    + rewrite startContinuousRecognitionAsync_run by exact Hd. cbv zeta.
      destruct (getProperty _ _ _).
      * cbn [trace_of state_of fst snd]. apply Hstart, report_calls_user. reflexivity.
      * cbn [trace_of state_of fst snd]. split;
          [apply sessions_live_teardown|apply teardown_calls_ordered].
  - destruct (disposedSpeechRecognizer (recognizer s)) eqn:Hd.
    + destruct (disposed_methods_run s None None cb0 err0 Hd) as (_ & _ & -> & _).
      split; reflexivity.
    + rewrite stopContinuousRecognitionAsync_run by exact Hd.
      cbn [trace_of state_of fst snd]. split.
      * rewrite sessions_live_app, sessions_live_teardown.
        apply (sessions_live_user_calls []), report_calls_user. reflexivity.
      * rewrite teardown_ordered_app by apply teardown_calls_ordered.
        apply teardown_ordered_user_calls, report_calls_user. reflexivity.
  - destruct (disposedSpeechRecognizer (recognizer s)) eqn:Hd.
    + destruct (disposed_methods_run s None None None None Hd) as (_ & _ & _ & ->).
      split; reflexivity.
    + rewrite close_run by exact Hd. cbn [trace_of state_of fst snd]. split.
      * rewrite sessions_live_app, sessions_live_teardown. reflexivity.
      * rewrite teardown_ordered_app by apply teardown_calls_ordered. reflexivity.
  - destruct (setters_keep_session value s) as (-> & -> & _). split; reflexivity.
  - destruct (setters_keep_session value s) as (_ & _ & -> & ->). split; reflexivity.
  - rewrite deliver_state. split.
    + apply sessions_live_user_calls, deliver_user_calls.
    + apply teardown_ordered_user_calls, deliver_user_calls.
Qed.

Lemma perform_all_sessions ops s :
  sessions_live (held s) (fst (perform_all ops s)) = held (snd (perform_all ops s)) /\
  teardown_ordered (fst (perform_all ops s)) = true.
Proof.
  revert s. induction ops as [|op rest IH]; intros s; [split; reflexivity|].
  cbn [perform_all fst snd].
  destruct (perform_sessions op s) as [Hl Ho].
  destruct (IH (state_of (perform op s))) as [IHl IHo].
  split.
  - rewrite sessions_live_app, Hl. exact IHl.
  - rewrite teardown_ordered_app by exact Ho. exact IHo.
Qed.

Lemma perform_all_disposed ops s :
  disposedSpeechRecognizer (recognizer s) = true ->
  forallb is_session_operation ops = true ->
  perform_all ops s = ([], s).
Proof.
  intros Hd. induction ops as [|op rest IH]; [reflexivity|].
  cbn [forallb]. intros [Hop Hrest]%andb_true_iff.
  cbn [perform_all].
  assert (Hp : perform op s = ([], s, inl ObjectDisposed) \/ perform op s = ([], s, inr tt)).
  { destruct op as [cb err|cb0 err0|cb0 err0| |value|value|r event];
      try discriminate Hop; cbn [perform].
    - left. apply (disposed_methods_run s cb err None None Hd).
    - left. apply (disposed_methods_run s None None cb0 err0 Hd).
    - left. apply (disposed_methods_run s None None cb0 err0 Hd).
    - left. apply (disposed_methods_run s None None None None Hd).
    - right. apply deliver_guarded. unfold guarded. rewrite Hd. reflexivity. }
  destruct Hp as [-> | ->]; cbn [trace_of state_of fst snd app];
    rewrite (IH Hrest); reflexivity.
Qed.

Lemma deliver_all_user_calls r events s :
  Forall (fun a => is_user_call a = true) (trace_of (deliver_all r events s)).
Proof.
  induction events as [|event rest IH]; [constructor|].
  rewrite deliver_all_cons.
  destruct (outcome_of (deliver r event s)); cbn [trace_of fst].
  - apply deliver_user_calls.
  - apply Forall_app. split; [apply deliver_user_calls|exact IH].
Qed.

(** Without a completion callback no event completes anything. *)
Lemma dispatch_without_callback this event e :
  completions (trace_of (implDispatchMessageHandler this event (mkLocals None e))) = 0%nat.
Proof.
  destruct event as [Status sid error|sid p|sid p|sid p|name].
  - rewrite ended_run. destruct (bool_decide _); [|reflexivity].
    cbn [trace_of fst]. unfold completion_calls. cbn [cb].
    destruct (canceled this); reflexivity.
  - rewrite simple_run. cbn [trace_of fst].
    rewrite completions_app, subscriber_calls_completions. reflexivity.
  - rewrite detailed_run.
    destruct (outcome_of (detailedPhraseResult p (mkLocals None e))); [reflexivity|].
    cbn [trace_of fst]. rewrite completions_app, subscriber_calls_completions.
    reflexivity.
  - rewrite hypothesis_run. cbn [trace_of fst]. destruct (recognizing this); reflexivity.
  - reflexivity.
Qed.

Lemma continuous_sink_never_completes r events s :
  sinks s !! r = Some ContinuousSink ->
  completions (trace_of (deliver_all r events s)) = 0%nat.
Proof.
  intros Hk. induction events as [|event rest IH]; [reflexivity|].
  assert (Hd : completions (trace_of (deliver r event s)) = 0%nat).
  { rewrite deliver_run, Hk, sink_run. destruct (guarded s); [reflexivity|].
    cbv zeta. cbn [trace_of fst sink_locals]. apply dispatch_without_callback. }
  rewrite deliver_all_cons.
  destruct (outcome_of (deliver r event s)); cbn [trace_of fst].
  - exact Hd.
  - rewrite completions_app, Hd, IH. reflexivity.
Qed.

(* --------------------------------------------------------------------- *)

(** X12.  After [close()] each of [recognizeOnceAsync],
    [startContinuousRecognitionAsync], [stopContinuousRecognitionAsync] and
    [close] fails with the disposed classification, makes no call and
    changes nothing; so does any sequence of such calls and of events of any
    session. *)
Theorem closed_recognizer_is_locked s cb err cb0 err0 ops :
  let s' := state_of (close s) in
  recognizeOnceAsync cb err s' = ([], s', inl ObjectDisposed) /\
  startContinuousRecognitionAsync cb0 err0 s' = ([], s', inl ObjectDisposed) /\
  stopContinuousRecognitionAsync cb0 err0 s' = ([], s', inl ObjectDisposed) /\
  close s' = ([], s', inl ObjectDisposed) /\
  (forallb is_session_operation ops = true -> perform_all ops s' = ([], s')).
Proof.
  cbv zeta. pose proof (close_disposed s) as Hd.
  destruct (disposed_methods_run _ cb err cb0 err0 Hd) as (H1 & H2 & H3 & H4).
  repeat split; try assumption.
  apply perform_all_disposed, Hd.
Qed.

(** X13.  [close()] on a live instance turns off and disposes the session
    held, if any, then calls the base class's [dispose(true)], each exactly
    once, and returns; the instance is then disposed and holds no session,
    its properties and subscribers are as before.  [dispose(false)] on a
    live instance only calls the base class: the session is kept and the
    instance is not marked disposed. *)
Theorem close_tears_down_once s :
  disposedSpeechRecognizer (recognizer s) = false ->
  let s' := state_of (close s) in
  trace_of (close s) =
    match reco (recognizer s) with
    | Some r => [AudioSource_TurnOff r; Dispose r; super_dispose true]
    | None => [super_dispose true]
    end /\
  outcome_of (close s) = inr tt /\
  disposedSpeechRecognizer (recognizer s') = true /\
  reco (recognizer s') = None /\
  properties (recognizer s') = properties (recognizer s) /\
  recognizing (recognizer s') = recognizing (recognizer s) /\
  recognized (recognizer s') = recognized (recognizer s) /\
  canceled (recognizer s') = canceled (recognizer s) /\
  on_this (dispose false) s = ([super_dispose false], s, inr tt).
Proof.
  intros Hd. cbv zeta. rewrite close_run by exact Hd.
  cbn [trace_of state_of outcome_of fst snd]. unfold teardown_calls.
  repeat split.
  - destruct (reco (recognizer s)); reflexivity.
  - unfold on_this, dispose, super_dispose_.
    cbv [mbind M_bind get mret M_ret emit]. rewrite Hd. cbn.
    destruct s as [this n k]. reflexivity.
Qed.

(** X14.  [startContinuousRecognitionAsync(cb, err)] on a live instance
    with a language: the session held, if any, is torn down, a new session
    is set up in conversation mode and started, and only then [cb] is
    called, once; if [cb] throws, [err] receives what it threw.  Whatever
    the callbacks do, the new session is held afterwards and its sink is
    the continuous one. *)
Theorem startContinuous_starts_then_reports s cb0 err0 :
  disposedSpeechRecognizer (recognizer s) = false ->
  is_Some (getProperty (properties (recognizer s))
             SpeechServiceConnection_RecoLanguage None) ->
  let n := next_session s in
  let s' := state_of (startContinuousRecognitionAsync cb0 err0 s) in
  trace_of (startContinuousRecognitionAsync cb0 err0 s) =
    teardown_calls (recognizer s) ++ [Setup Conversation n; Start n]
    ++ report_calls call_started cb0 err0 /\
  outcome_of (startContinuousRecognitionAsync cb0 err0 s) = report_outcome cb0 err0 /\
  reco (recognizer s') = Some n /\
  sinks s' !! n = Some ContinuousSink /\
  next_session s' = S n.
Proof.
  intros Hd [lang Hl]. cbv zeta.
  rewrite startContinuousRecognitionAsync_run by exact Hd. cbv zeta. rewrite Hl.
  cbn [trace_of state_of outcome_of fst snd recognizer sinks next_session].
  repeat split. apply lookup_insert_eq.
Qed.

(** X15.  [stopContinuousRecognitionAsync(cb, err)] on a live instance
    tears down the session held, if any, and then calls [cb]; called again
    it makes no call into the engine, only calls its [cb], and changes
    nothing. *)
Theorem stop_twice_stops_once s cb0 err0 cb1 err1 :
  disposedSpeechRecognizer (recognizer s) = false ->
  let s1 := state_of (stopContinuousRecognitionAsync cb0 err0 s) in
  trace_of (stopContinuousRecognitionAsync cb0 err0 s) =
    teardown_calls (recognizer s) ++ report_calls call_stopped cb0 err0 /\
  reco (recognizer s1) = None /\
  stopContinuousRecognitionAsync cb1 err1 s1 =
    (report_calls call_stopped cb1 err1, s1, report_outcome cb1 err1).
Proof.
  intros Hd. cbv zeta.
  rewrite (stopContinuousRecognitionAsync_run cb0 err0 s Hd).
  cbn [trace_of state_of fst snd]. repeat split.
  rewrite stopContinuousRecognitionAsync_run by exact Hd. reflexivity.
Qed.

(** X16.  Over any sequence of method calls, setter calls and events, the
    sessions that were set up and not yet disposed are exactly the session
    the recognizer holds: there is never more than one. *)
Theorem at_most_one_live_session ops s :
  let live := sessions_live (held s) (fst (perform_all ops s)) in
  live = held (snd (perform_all ops s)) /\ (length live <= 1)%nat.
Proof.
  cbv zeta. destruct (perform_all_sessions ops s) as [-> _].
  split; [reflexivity|]. unfold held. destruct (reco _); cbn; lia.
Qed.

(** X17.  Over any sequence of method calls, setter calls and events, a
    session is disposed only right after its audio source was turned off,
    and an audio source is turned off only to dispose its session right
    after. *)
Theorem turn_off_then_dispose ops s :
  teardown_ordered (fst (perform_all ops s)) = true.
Proof. exact (proj2 (perform_all_sessions ops s)). Qed.

(** X18.  Events never change the recognizer or the engine's sinks, and
    they never cause a call into the engine: whatever a session emits, only
    user functions are called. *)
Theorem events_change_nothing r events s :
  state_of (deliver_all r events s) = s /\
  Forall (fun a => is_user_call a = true) (trace_of (deliver_all r events s)).
Proof. split; [apply deliver_all_state|apply deliver_all_user_calls]. Qed.

(** X19.  After [recognizeOnceAsync(cb, err)] on a live instance with a
    language, the new session is held and every event it emits is handled
    with this call's [cb] and [err]; a simple phrase reaches the subscriber
    its status selects and then [cb], with the result built from it. *)
Theorem recognizeOnce_events_use_its_callbacks s cb err event sid p :
  disposedSpeechRecognizer (recognizer s) = false ->
  is_Some (getProperty (properties (recognizer s))
             SpeechServiceConnection_RecoLanguage None) ->
  let n := next_session s in
  let s' := state_of (recognizeOnceAsync cb err s) in
  reco (recognizer s') = Some n /\
  deliver n event s' =
    (let d := implDispatchMessageHandler (recognizer s') event (mkLocals cb err) in
     (trace_of d, s', outcome_of d)) /\
  trace_of (deliver n (SpeechSimplePhraseEvent sid p) s') =
    subscriber_calls (recognizer s) sid (simple_RecognitionStatus p)
      (simplePhraseResult p)
    ++ completion_calls true (mkLocals cb err) (simplePhraseResult p).
Proof.
  intros Hd [lang Hl]. cbv zeta.
  rewrite recognizeOnceAsync_run by exact Hd. cbv zeta. rewrite Hl.
  cbn [state_of fst snd].
  assert (Hdel : forall ev,
    deliver (next_session s) ev
      (mkSystem (set_reco (recognizer s) (Some (next_session s))) (S (next_session s))
         (<[next_session s := OneShotSink cb err]> (sinks s)))
    = (let d := implDispatchMessageHandler
                  (set_reco (recognizer s) (Some (next_session s))) ev
                  (mkLocals cb err) in
       (trace_of d,
        mkSystem (set_reco (recognizer s) (Some (next_session s))) (S (next_session s))
          (<[next_session s := OneShotSink cb err]> (sinks s)),
        outcome_of d))).
  { intros ev. rewrite deliver_run. cbn [sinks]. rewrite lookup_insert_eq.
    rewrite sink_run. unfold guarded. cbn [recognizer set_reco disposedSpeechRecognizer reco].
    rewrite Hd. reflexivity. }
  split; [reflexivity|]. split; [apply Hdel|].
  rewrite Hdel. cbv zeta. rewrite simple_run. reflexivity.
Qed.

(** X20.  After [startContinuousRecognitionAsync] on a live instance with a
    language, no event of the new session, in any number, ever calls a
    completion callback or an error callback. *)
Theorem continuous_session_never_completes s cb0 err0 events :
  disposedSpeechRecognizer (recognizer s) = false ->
  is_Some (getProperty (properties (recognizer s))
             SpeechServiceConnection_RecoLanguage None) ->
  let s' := state_of (startContinuousRecognitionAsync cb0 err0 s) in
  completions (trace_of (deliver_all (next_session s) events s')) = 0%nat.
Proof.
  intros Hd [lang Hl]. cbv zeta. apply continuous_sink_never_completes.
  rewrite startContinuousRecognitionAsync_run by exact Hd. cbv zeta. rewrite Hl.
  cbn [state_of fst snd sinks]. apply lookup_insert_eq.
Qed.

Lemma configuration_kept_refl this : configuration_kept this this.
Proof. unfold configuration_kept. auto. Qed.

Lemma configuration_kept_trans a b c :
  configuration_kept a b -> configuration_kept b c -> configuration_kept a c.
Proof.
  intros (R1 & D1 & C1 & P1 & X1) (R2 & D2 & C2 & P2 & X2).
  unfold configuration_kept. repeat split; try congruence.
  - intros k Hk1 Hk2. rewrite P2, P1 by assumption. reflexivity.
  - auto.
Qed.

Lemma configuration_kept_set_reco this r :
  configuration_kept this (set_reco this r).
Proof. unfold configuration_kept. cbn. auto. Qed.

Lemma perform_keeps_configuration op s :
  configuration_kept (recognizer s) (recognizer (state_of (perform op s))).
Proof.
  destruct op as [cb err|cb0 err0|cb0 err0| |value|value|r event]; cbn [perform].
  - destruct (disposedSpeechRecognizer (recognizer s)) eqn:Hd.
    + destruct (disposed_methods_run s cb err None None Hd) as (-> & _).
      apply configuration_kept_refl.
    + rewrite recognizeOnceAsync_run by exact Hd. cbv zeta.
      destruct (getProperty _ _ _); apply configuration_kept_set_reco.
  - destruct (disposedSpeechRecognizer (recognizer s)) eqn:Hd.
    + destruct (disposed_methods_run s None None cb0 err0 Hd) as (_ & -> & _).
      apply configuration_kept_refl.
    + rewrite startContinuousRecognitionAsync_run by exact Hd. cbv zeta.
      destruct (getProperty _ _ _); apply configuration_kept_set_reco.
  - destruct (disposedSpeechRecognizer (recognizer s)) eqn:Hd.
    + destruct (disposed_methods_run s None None cb0 err0 Hd) as (_ & _ & -> & _).
      apply configuration_kept_refl.
    + rewrite stopContinuousRecognitionAsync_run by exact Hd.
      apply configuration_kept_set_reco.
  - destruct (disposedSpeechRecognizer (recognizer s)) eqn:Hd.
    + destruct (disposed_methods_run s None None None None Hd) as (_ & _ & _ & ->).
      apply configuration_kept_refl.
    + rewrite close_run by exact Hd. unfold configuration_kept. cbn. auto.
  - rewrite on_this_state.
    destruct (setters_write_only (recognizer s) value) as ((p' & -> & Hp) & _).
    unfold configuration_kept. cbn. repeat split; auto.
  - rewrite on_this_state.
    destruct (setters_write_only (recognizer s) value) as (_ & (p' & -> & Hp)).
    unfold configuration_kept. cbn. repeat split; auto.
  - rewrite deliver_state. apply configuration_kept_refl.
Qed.

(** X22.  Over any sequence of method calls, setter calls and events the
    three subscribers stay as they are, every property other than the
    endpoint id and the authorization token keeps its value (the language
    and the output format among them), and a disposed instance stays
    disposed. *)
Theorem operations_keep_configuration ops s :
  let this' := recognizer (snd (perform_all ops s)) in
  configuration_kept (recognizer s) this' /\
  get_speechRecognitionLanguage this' =
    ([], this',
     if disposedSpeechRecognizer this' then inl ObjectDisposed
     else inr (getProperty (properties (recognizer s))
                 SpeechServiceConnection_RecoLanguage None)).
Proof.
  cbv zeta.
  assert (Hk : configuration_kept (recognizer s) (recognizer (snd (perform_all ops s)))).
  { revert s. induction ops as [|op rest IH]; intros s;
      [apply configuration_kept_refl|].
    cbn [perform_all snd].
    eapply configuration_kept_trans; [apply perform_keeps_configuration|apply IH]. }
  split; [exact Hk|].
  destruct Hk as (_ & _ & _ & Hp & _).
  unfold get_speechRecognitionLanguage.
  cbv [mbind M_bind get throwIfDisposed throw mret M_ret].
  destruct (disposedSpeechRecognizer _); [reflexivity|].
  cbn. unfold getProperty. rewrite Hp by discriminate. reflexivity.
Qed.

(** An operation that starts no recognition leaves a closed guard closed. *)
Lemma perform_keeps_guard op s :
  starts_recognition op = false ->
  guarded s = true ->
  guarded (state_of (perform op s)) = true.
Proof.
  intros Hop Hg.
  destruct op as [cb err|cb0 err0|cb0 err0| |value|value|r event];
    try discriminate Hop; cbn [perform].
  - apply stop_guarded.
  - apply close_guarded.
  - unfold guarded. rewrite on_this_state.
    destruct (setters_write_only (recognizer s) value) as ((p' & -> & _) & _).
    exact Hg.
  - unfold guarded. rewrite on_this_state.
    destruct (setters_write_only (recognizer s) value) as (_ & (p' & -> & _)).
    exact Hg.
  - rewrite deliver_state. exact Hg.
Qed.

Lemma perform_all_keeps_guard ops s :
  forallb (fun op => negb (starts_recognition op)) ops = true ->
  guarded s = true ->
  guarded (snd (perform_all ops s)) = true.
Proof.
  revert s. induction ops as [|op rest IH]; intros s; [intros _ Hg; exact Hg|].
  cbn [forallb perform_all snd]. intros [Hop Hrest]%andb_true_iff Hg.
  apply IH; [exact Hrest|]. apply perform_keeps_guard; [|exact Hg].
  destruct (starts_recognition op); [discriminate Hop|reflexivity].
Qed.

Lemma perform_all_keeps_disposed ops s :
  disposedSpeechRecognizer (recognizer s) = true ->
  disposedSpeechRecognizer (recognizer (snd (perform_all ops s))) = true.
Proof.
  revert s. induction ops as [|op rest IH]; intros s Hd; [exact Hd|].
  cbn [perform_all snd]. apply IH.
  destruct (perform_keeps_configuration op s) as (_ & _ & _ & _ & Hk). exact (Hk Hd).
Qed.

(** C2, as amended.  After [stopContinuousRecognitionAsync], and until a
    new recognition is started, no event of any session, delivered to the
    sink that session was started with, causes any call: whatever calls of
    [stopContinuousRecognitionAsync], [close] and of the setters and
    whatever events come in between, the run of any sequence of events is
    empty.  After [close] this holds for good, whatever is called
    afterwards.  Starting a recognition while a session is held turns that
    session off and disposes it before the new session is set up and
    started. *)
Theorem stopped_or_closed_sinks_stay_silent s cb0 err0 cb err ops r events :
  (forallb (fun op => negb (starts_recognition op)) ops = true ->
   let s' := snd (perform_all ops
                    (state_of (stopContinuousRecognitionAsync cb0 err0 s))) in
   deliver_all r events s' = ([], s', inr tt)) /\
  (let s' := snd (perform_all ops (state_of (close s))) in
   deliver_all r events s' = ([], s', inr tt)) /\
  (forall r0,
     disposedSpeechRecognizer (recognizer s) = false ->
     reco (recognizer s) = Some r0 ->
     is_Some (getProperty (properties (recognizer s))
                SpeechServiceConnection_RecoLanguage None) ->
     trace_of (recognizeOnceAsync cb err s) =
       [AudioSource_TurnOff r0; Dispose r0;
        Setup Interactive (next_session s); Start (next_session s)] /\
     trace_of (startContinuousRecognitionAsync cb0 err0 s) =
       [AudioSource_TurnOff r0; Dispose r0;
        Setup Conversation (next_session s); Start (next_session s)]
       ++ report_calls call_started cb0 err0).
Proof.
  split; [|split].
  - intros Hops. cbv zeta. apply deliver_all_guarded.
    apply perform_all_keeps_guard; [exact Hops|apply stop_guarded].
  - cbv zeta. apply deliver_all_guarded. unfold guarded.
    rewrite perform_all_keeps_disposed; [reflexivity|apply close_disposed].
  - intros r0 Hd Hr [lang Hlang]. split.
    + rewrite recognizeOnceAsync_run by exact Hd. cbv zeta. rewrite Hlang.
      unfold teardown_calls. rewrite Hr. reflexivity.
    + rewrite startContinuousRecognitionAsync_run by exact Hd. cbv zeta. rewrite Hlang.
      unfold teardown_calls. rewrite Hr. reflexivity.
Qed.

End Sessions.
End SessionFacts.


(* ===================================================================== *)
(** ** AudioStreamFormat on integers *)
(* ===================================================================== *)

Module AudioStreamFormatIntegers.
Import AudioStreamFormat.

(** X21.  For integer arguments that are not negative and whose products
    stay within the integers a number holds exactly: a block is aligned on
    at least 8 per channel; for samples of 8 bits or more the block
    alignment is [channels * bitsPerSample] and the average rate is the
    sample rate times the block alignment; for samples of 8 bits or less
    the block alignment is [8 * channels]. *)
Theorem pcm_block_alignment samplesPerSecond bitsPerSample_ channels_ :
  0 <= channels_ ->
  0 <= samplesPerSecond ->
  0 <= bitsPerSample_ ->
  safe_integer (channels_ * Z.max bitsPerSample_ 8) ->
  safe_integer (samplesPerSecond * channels_ * Z.max bitsPerSample_ 8) ->
  let f := getWaveFormatPCM_Z samplesPerSecond bitsPerSample_ channels_ in
  safe_integer (samplesPerSecond * channels_) /\
  safe_integer (avgBytesPerSec f) /\
  safe_integer (blockAlign f) /\
  safe_integer (samplesPerSec f * blockAlign f) /\
  8 * channels_ <= blockAlign f /\
  (8 <= bitsPerSample_ ->
   blockAlign f = channels_ * bitsPerSample_ /\
   avgBytesPerSec f = samplesPerSec f * blockAlign f) /\
  (bitsPerSample_ <= 8 -> blockAlign f = 8 * channels_).
Proof.
  intros Hc Hs Hb Hcm Hscm. cbn. unfold safe_integer in *.
  assert (Hm : 8 <= Z.max bitsPerSample_ 8) by apply Z.le_max_r.
  assert (Hbm : bitsPerSample_ <= Z.max bitsPerSample_ 8) by apply Z.le_max_l.
  assert (Hsc : 0 <= samplesPerSecond * channels_) by (apply Z.mul_nonneg_nonneg; assumption).
  split; [nia|]. split; [nia|]. split; [nia|]. split; [nia|]. split; [nia|].
  split.
  - intros H8. rewrite Z.max_l by exact H8. split; [reflexivity|].
    symmetry. apply Z.mul_assoc.
  - intros H8. rewrite Z.max_r by exact H8. apply Z.mul_comm.
Qed.

Lemma pcm_block_alignment_witness :
  0 <= 2 /\ 0 <= 44100 /\ 0 <= 16 /\
  safe_integer (2 * Z.max 16 8) /\
  safe_integer (44100 * 2 * Z.max 16 8) /\
  blockAlign (getWaveFormatPCM_Z 44100 16 2) = 2 * 16 /\
  avgBytesPerSec (getWaveFormatPCM_Z 44100 16 2) = 44100 * 32.
Proof.
  assert (Hc : 0 <= 2) by (vm_compute; discriminate).
  assert (Hs : 0 <= 44100) by (vm_compute; discriminate).
  assert (Hb0 : 0 <= 16) by (vm_compute; discriminate).
  assert (H1 : safe_integer (2 * Z.max 16 8)) by (split; reflexivity).
  assert (H2 : safe_integer (44100 * 2 * Z.max 16 8)) by (split; reflexivity).
  assert (Hb : 8 <= 16) by (vm_compute; discriminate).
  destruct (pcm_block_alignment 44100 16 2 Hc Hs Hb0 H1 H2)
    as (_ & _ & _ & _ & _ & H8 & _).
  destruct (H8 Hb) as [Ha Hr].
  exact (conj Hc (conj Hs (conj Hb0 (conj H1 (conj H2 (conj Ha Hr)))))).
Defined.

End AudioStreamFormatIntegers.


(* ===================================================================== *)
(** ** More runs against the sample service *)
(* ===================================================================== *)

Module Runs.
Import SpeechRecognizer Expected Lifecycle Service.
Import SpeechRecognizerFacts AccessorFacts TranslatorFacts SessionFacts.

Lemma endpointId_set_then_get_witness :
  disposedSpeechRecognizer (recognizer all_subscribed) = false /\
  is_blank "model-1" = false /\
  outcome_of (get_endpointId
                (state_of (set_endpointId (Some "model-1") (recognizer all_subscribed))))
  = inr (Some "model-1").
Proof.
  assert (Hd : disposedSpeechRecognizer (recognizer all_subscribed) = false)
    by reflexivity.
  assert (Hb : is_blank "model-1" = false) by reflexivity.
  destruct (endpointId_set_then_get (recognizer all_subscribed) "model-1" Hd Hb)
    as [_ Hg].
  refine (conj Hd (conj Hb _)). rewrite Hg. reflexivity.
Defined.

Lemma setters_write_only_their_property_witness :
  outcome_of (set_authorizationToken None (recognizer all_subscribed))
  = inl (ArgumentNullOrWhitespace "token") /\
  state_of (set_authorizationToken None (recognizer all_subscribed))
  = recognizer all_subscribed.
Proof.
  assert (Ho : outcome_of (set_authorizationToken None (recognizer all_subscribed))
               = inl (ArgumentNullOrWhitespace "token")) by reflexivity.
  destruct (setters_write_only_their_property (recognizer all_subscribed) None)
    as (_ & _ & _ & _ & _ & Hs).
  exact (conj Ho (Hs _ Ho)).
Defined.

Lemma authorizationToken_set_then_get_witness :
  is_blank "fresh" = false /\
  outcome_of (get_authorizationToken
                (state_of (set_authorizationToken (Some "fresh")
                             (recognizer (after close all_subscribed)))))
  = inr (Some "fresh").
Proof.
  assert (Hb : is_blank "fresh" = false) by reflexivity.
  destruct (authorizationToken_set_then_get
              (recognizer (after close all_subscribed)) "fresh" Hb) as [_ Hg].
  refine (conj Hb _). rewrite Hg. reflexivity.
Defined.

Lemma outputFormat_is_Detailed_unless_Simple_witness :
  let this :=
    set_privProperties (recognizer all_subscribed)
      (setProperty (properties (recognizer all_subscribed))
         OutputFormatPropertyName "simple") in
  disposedSpeechRecognizer this = false /\
  outcome_of (get_outputFormat this) = inr Detailed.
Proof.
  cbv zeta.
  set (this := set_privProperties (recognizer all_subscribed)
                 (setProperty (properties (recognizer all_subscribed))
                    OutputFormatPropertyName "simple")).
  assert (Hd : disposedSpeechRecognizer this = false) by reflexivity.
  refine (conj Hd _).
  rewrite (outputFormat_is_Detailed_unless_Simple this Hd).
  vm_compute. reflexivity.
Defined.

Lemma getters_of_missing_properties_witness :
  disposedSpeechRecognizer (recognizer all_subscribed) = false /\
  properties (recognizer all_subscribed) !! SpeechServiceConnection_EndpointId = None /\
  get_endpointId (recognizer all_subscribed) =
    ([], recognizer all_subscribed,
     inr (Some "00000000-0000-0000-0000-000000000000")).
Proof.
  assert (Hd : disposedSpeechRecognizer (recognizer all_subscribed) = false)
    by reflexivity.
  assert (Hm : properties (recognizer all_subscribed)
               !! SpeechServiceConnection_EndpointId = None)
    by (vm_compute; reflexivity).
  destruct (getters_of_missing_properties (recognizer all_subscribed) Hd) as (He & _).
  exact (conj Hd (conj Hm (He Hm))).
Defined.

Lemma session_end_dispatch_witness :
  Cs_ConnectError <> Cs_Success /\
  Cs_Success = Cs_Success /\
  trace_of (implDispatchMessageHandler (recognizer awaiting) ended_with_error
              (mkLocals None None)) =
    [call_canceled
       (mkCanceledEventArgs (Some "s1") (Some Error) (Some "ConnectError: timed out"))] /\
  implDispatchMessageHandler (recognizer awaiting)
    (RecognitionEndedEvent Cs_Success "s1" "") (mkLocals (Some returns) None) =
    ([], mkLocals (Some returns) None, inr tt).
Proof.
  assert (Hne : Cs_ConnectError <> Cs_Success) by discriminate.
  assert (Heq : Cs_Success = Cs_Success) by reflexivity.
  destruct (@session_end_dispatch exports (recognizer awaiting) Cs_ConnectError "s1" "timed out"
              (mkLocals None None)) as [_ Hbad].
  destruct (Hbad Hne) as (Ht & _ & _).
  destruct (@session_end_dispatch exports (recognizer awaiting) Cs_Success "s1" ""
              (mkLocals (Some returns) None)) as [Hok _].
  exact (conj Hne (conj Heq (conj Ht (Hok Heq)))).
Defined.

Lemma dispatch_throws_only_from_err_or_missing_alternative_witness :
  outcome_of (implDispatchMessageHandler (recognizer awaiting)
                detailed_without_alternative (mkLocals (Some returns) (Some returns)))
  = inl (TypeError "Cannot read property 'Display' of undefined") /\
  ((exists sid p,
      detailed_without_alternative = SpeechDetailedPhraseEvent sid p /\
      implTranslateRecognitionResult (detailed_RecognitionStatus p) = RecognizedSpeech /\
      detailed_NBest p = [] /\
      trace_of (implDispatchMessageHandler (recognizer awaiting)
                  detailed_without_alternative
                  (mkLocals (Some returns) (Some returns))) = []) \/
   (exists f g result x,
      Some (returns : Handler SpeechRecognitionResult) = Some f /\
      Some (returns : Handler JSError) = Some g /\ f result = Some x /\
      g x = Some (TypeError "Cannot read property 'Display' of undefined"))).
Proof.
  assert (Ho : outcome_of (implDispatchMessageHandler (recognizer awaiting)
                             detailed_without_alternative
                             (mkLocals (Some returns) (Some returns)))
               = inl (TypeError "Cannot read property 'Display' of undefined"))
    by (vm_compute; reflexivity).
  exact (conj Ho
           (@dispatch_throws_only_from_err_or_missing_alternative exports
              (recognizer awaiting) detailed_without_alternative
              (mkLocals (Some returns) (Some returns)) _ Ho)).
Defined.

Lemma detailed_phrase_never_calls_err_witness :
  [mkPhrase "hello" "Hello."] <> [] /\
  outcome_of (implDispatchMessageHandler (recognizer awaiting)
                (SpeechDetailedPhraseEvent "s1"
                   (mkDetailed St_Success [mkPhrase "hello" "Hello."] 100 7))
                (mkLocals (Some (throws "cb")) (Some (throws "err")))) = inr tt.
Proof.
  assert (Hne : [mkPhrase "hello" "Hello."] <> []) by discriminate.
  destruct (@detailed_phrase_never_calls_err exports (recognizer awaiting) "s1"
              (@mkDetailed exports St_Success [mkPhrase "hello" "Hello."] 100 7)
              (mkLocals (Some (throws "cb")) (Some (throws "err")))) as (_ & _ & Ho).
  exact (conj Hne (Ho Hne)).
Defined.

Lemma canceled_phrase_has_no_error_details_witness :
  implTranslateRecognitionResult
    (simple_RecognitionStatus (mkSimple St_Error "" 0 0)) = Canceled /\
  trace_of (implDispatchMessageHandler (recognizer awaiting)
              (SpeechSimplePhraseEvent "s1" (mkSimple St_Error "" 0 0))
              (mkLocals None None)) =
    [call_canceled (mkCanceledEventArgs (Some "s1") (Some Error) None)].
Proof.
  assert (Hc : implTranslateRecognitionResult
                 (simple_RecognitionStatus (mkSimple St_Error "" 0 0)) = Canceled)
    by reflexivity.
  destruct (@canceled_phrase_has_no_error_details exports (recognizer awaiting) "s1"
              (@mkSimple exports St_Error "" 0 0) (mkLocals None None) Hc) as (Ht & _ & _).
  exact (conj Hc Ht).
Defined.

Lemma stopped_or_closed_sinks_stay_silent_witness :
  let ops := [SetAuthorizationToken (Some "fresh"); Emit 0%nat hello;
              StopContinuousRecognitionAsync (Some returns) None] in
  forallb (fun op => negb (starts_recognition op)) ops = true /\
  disposedSpeechRecognizer (recognizer listening) = false /\
  reco (recognizer listening) = Some 0%nat /\
  is_Some (getProperty (properties (recognizer listening))
             SpeechServiceConnection_RecoLanguage None) /\
  (let s' := snd (perform_all ops
                    (after (stopContinuousRecognitionAsync None None) listening)) in
   deliver_all 0%nat [hypothesis_hel; hello] s' = ([], s', inr tt)) /\
  trace_of (recognizeOnceAsync None None listening) =
    [AudioSource_TurnOff 0%nat; Dispose 0%nat; Setup Interactive 1%nat; Start 1%nat].
Proof.
  cbv zeta.
  assert (Hops : forallb (fun op => negb (starts_recognition op))
                   [SetAuthorizationToken (Some "fresh"); Emit 0%nat hello;
                    StopContinuousRecognitionAsync (Some returns) None] = true)
    by reflexivity.
  assert (Hd : disposedSpeechRecognizer (recognizer listening) = false)
    by reflexivity.
  assert (Hr : reco (recognizer listening) = Some 0%nat) by reflexivity.
  assert (Hl : is_Some (getProperty (properties (recognizer listening))
                          SpeechServiceConnection_RecoLanguage None))
    by (exists "en-US"; vm_compute; reflexivity).
  destruct (@stopped_or_closed_sinks_stay_silent exports listening None None None None
              [SetAuthorizationToken (Some "fresh"); Emit 0%nat hello;
               StopContinuousRecognitionAsync (Some returns) None]
              0%nat [hypothesis_hel; hello]) as (Hstop & _ & Hre).
  destruct (Hre 0%nat Hd Hr Hl) as [Honce _].
  exact (conj Hops (conj Hd (conj Hr (conj Hl (conj (Hstop Hops) Honce))))).
Defined.

(** Stopping does not silence a sink for good: once a new recognition is
    started, an event that reaches the sink of the stopped session is
    dispatched again. *)
Example stale_sink_dispatches_after_stop_and_start :
  let stopped := after (stopContinuousRecognitionAsync None None) awaiting in
  let restarted := after (startContinuousRecognitionAsync None None) stopped in
  trace_of (deliver 0%nat hypothesis_hel stopped) = [] /\
  map is_user_call (trace_of (deliver 0%nat hello restarted)) = [true; true].
Proof. split; vm_compute; reflexivity. Qed.

Lemma closed_recognizer_is_locked_witness :
  let ops := [RecognizeOnceAsync (Some returns) None; Emit 0%nat hello;
              StartContinuousRecognitionAsync (Some returns) None;
              Emit 1%nat hypothesis_hel; Close] in
  forallb is_session_operation ops = true /\
  perform_all ops (after close listening) = ([], after close listening).
Proof.
  cbv zeta.
  assert (Hs : forallb is_session_operation
                 [RecognizeOnceAsync (Some returns) None; Emit 0%nat hello;
                  StartContinuousRecognitionAsync (Some returns) None;
                  Emit 1%nat hypothesis_hel; Close] = true) by reflexivity.
  destruct (@closed_recognizer_is_locked exports listening None None None None
              [RecognizeOnceAsync (Some returns) None; Emit 0%nat hello;
               StartContinuousRecognitionAsync (Some returns) None;
               Emit 1%nat hypothesis_hel; Close]) as (_ & _ & _ & _ & Hall).
  exact (conj Hs (Hall Hs)).
Defined.

Lemma close_tears_down_once_witness :
  disposedSpeechRecognizer (recognizer listening) = false /\
  trace_of (close listening) =
    [AudioSource_TurnOff 0%nat; Dispose 0%nat; super_dispose true].
Proof.
  assert (Hd : disposedSpeechRecognizer (recognizer listening) = false)
    by reflexivity.
  destruct (close_tears_down_once listening Hd) as (Ht & _).
  exact (conj Hd Ht).
Defined.

Lemma startContinuous_starts_then_reports_witness :
  disposedSpeechRecognizer (recognizer listening) = false /\
  is_Some (getProperty (properties (recognizer listening))
             SpeechServiceConnection_RecoLanguage None) /\
  trace_of (startContinuousRecognitionAsync (Some (throws "started")) (Some returns)
              listening) =
    [AudioSource_TurnOff 0%nat; Dispose 0%nat; Setup Conversation 1%nat; Start 1%nat;
     call_started; call_err (Thrown "started")] /\
  reco (recognizer (after (startContinuousRecognitionAsync (Some (throws "started"))
                             (Some returns)) listening)) = Some 1%nat.
Proof.
  assert (Hd : disposedSpeechRecognizer (recognizer listening) = false)
    by reflexivity.
  assert (Hl : is_Some (getProperty (properties (recognizer listening))
                          SpeechServiceConnection_RecoLanguage None))
    by (exists "en-US"; vm_compute; reflexivity).
  destruct (startContinuous_starts_then_reports listening (Some (throws "started"))
              (Some returns) Hd Hl) as (Ht & _ & Hr & _).
  exact (conj Hd (conj Hl (conj Ht Hr))).
Defined.

Lemma stop_twice_stops_once_witness :
  disposedSpeechRecognizer (recognizer listening) = false /\
  trace_of (stopContinuousRecognitionAsync (Some returns) None listening) =
    [AudioSource_TurnOff 0%nat; Dispose 0%nat; call_stopped] /\
  trace_of (stopContinuousRecognitionAsync (Some returns) None
              (after (stopContinuousRecognitionAsync (Some returns) None) listening)) =
    [call_stopped].
Proof.
  assert (Hd : disposedSpeechRecognizer (recognizer listening) = false)
    by reflexivity.
  destruct (stop_twice_stops_once listening (Some returns) None (Some returns) None Hd)
    as (Ht & _ & Hagain).
  refine (conj Hd (conj Ht _)). unfold after. rewrite Hagain. reflexivity.
Defined.

Lemma recognizeOnce_events_use_its_callbacks_witness :
  disposedSpeechRecognizer (recognizer all_subscribed) = false /\
  is_Some (getProperty (properties (recognizer all_subscribed))
             SpeechServiceConnection_RecoLanguage None) /\
  reco (recognizer awaiting) = Some 0%nat /\
  completions (trace_of (deliver 0%nat hello awaiting)) = 1%nat.
Proof.
  assert (Hd : disposedSpeechRecognizer (recognizer all_subscribed) = false)
    by reflexivity.
  assert (Hl : is_Some (getProperty (properties (recognizer all_subscribed))
                          SpeechServiceConnection_RecoLanguage None))
    by (exists "en-US"; vm_compute; reflexivity).
  destruct (@recognizeOnce_events_use_its_callbacks exports all_subscribed (Some returns)
              (Some returns) hello "s1" (@mkSimple exports St_Success "hello world" 100 7) Hd Hl)
    as (Hr & _ & Ht).
  refine (conj Hd (conj Hl (conj Hr _))).
  change (deliver 0%nat hello awaiting)
    with (deliver (next_session all_subscribed)
            (SpeechSimplePhraseEvent "s1" (mkSimple St_Success "hello world" 100 7))
            (state_of (recognizeOnceAsync (Some returns) (Some returns) all_subscribed))).
  rewrite Ht. vm_compute. reflexivity.
Defined.

Lemma continuous_session_never_completes_witness :
  disposedSpeechRecognizer (recognizer all_subscribed) = false /\
  is_Some (getProperty (properties (recognizer all_subscribed))
             SpeechServiceConnection_RecoLanguage None) /\
  completions (trace_of (deliver_all 0%nat [hypothesis_hel; hello; ended_with_error]
                           listening)) = 0%nat.
Proof.
  assert (Hd : disposedSpeechRecognizer (recognizer all_subscribed) = false)
    by reflexivity.
  assert (Hl : is_Some (getProperty (properties (recognizer all_subscribed))
                          SpeechServiceConnection_RecoLanguage None))
    by (exists "en-US"; vm_compute; reflexivity).
  exact (conj Hd (conj Hl
           (continuous_session_never_completes all_subscribed None None
              [hypothesis_hel; hello; ended_with_error] Hd Hl))).
Defined.

End Runs.
